(** * WebUSB transport of python-trezor: a shallow embedding

    The development follows [trezorlib/transport/webusb.py].  Python objects
    that are mutated or shared ([WebUsbHandle], [WebUsbTransport]) live in an
    explicit store and are referred to by address; calls into [usb1] go
    through a driver oracle and are recorded, in order, in a trace. *)

From Stdlib Require Import ZArith Lia Ascii String List.
From Stdlib Require Import DecimalString DecimalNat.
From stdpp Require Import base list strings.

Abbreviation byte := Init.Byte.byte.

Open Scope Z_scope.
Open Scope string_scope.
Open Scope list_scope.

(** ** Python values and exceptions *)

(** Error codes of libusb, as [usb1] turns them into subclasses of
    [usb1.USBError]. *)
Inductive USBErrorKind :=
| ErrIO | ErrInvalidParam | ErrAccess | ErrNoDevice | ErrNotFound | ErrBusy
| ErrTimeout | ErrOverflow | ErrPipe | ErrInterrupted | ErrNoMem
| ErrNotSupported | ErrOther.

Inductive Exn :=
| AssertionError
| IndexError
| IOError (args : list string)
| TransportException (msg : string)
| USBError (kind : USBErrorKind)
| OtherError (name : string)
| DanglingReference.

Inductive Result (A : Type) :=
| Ok (a : A)
| Raise (e : Exn).
Arguments Ok {A} a.
Arguments Raise {A} e.

(** [except usb1.USBErrorNotSupported] *)
Definition is_USBErrorNotSupported (e : Exn) : bool :=
  match e with
  | USBError ErrNotSupported => true
  | _ => false
  end.

(** The elements of the list that [dev_to_str] joins: one [str] and the
    port numbers, which are [int]s. *)
Inductive PyVal :=
| PyStr (s : string)
| PyInt (n : nat).

(** Decimal rendering of a non-negative [int]: [str(n)], ['%d' % n]. *)
Definition str_of_nat (n : nat) : string :=
  NilEmpty.string_of_uint (Nat.to_uint n).

Definition str (x : PyVal) : string :=
  match x with
  | PyStr s => s
  | PyInt n => str_of_nat n
  end.

(** ['%0<width>i' % n] for a non-negative [n]: zeros on the left up to
    [width] characters, never a truncation. *)
Definition zero_pad (width : nat) (s : string) : string :=
  string_of_list_ascii (repeat "0"%char (width - String.length s)) ++ s.

Definition fmt_03i (n : nat) : string := zero_pad 3 (str_of_nat n).

(** [sep.join(parts)] *)
Definition join (sep : string) (parts : list string) : string :=
  String.concat sep parts.

(** ** Module constants *)

Definition DEV_TREZOR1 : Z * Z := (0x534c, 0x0001).
Definition DEV_TREZOR2 : Z * Z := (0x1209, 0x53c1).
Definition DEV_TREZOR2_BL : Z * Z := (0x1209, 0x53c0).

Definition INTERFACE : Z := 0.
Definition ENDPOINT : Z := 1.
Definition DEBUG_INTERFACE : Z := 1.
Definition DEBUG_ENDPOINT : Z := 2.

(** [usb1.libusb1.LIBUSB_CLASS_VENDOR_SPEC], the class code of libusb for a
    vendor-specific interface. *)
Definition LIBUSB_CLASS_VENDOR_SPEC : Z := 0xff.

(** ** What [usb1] exposes *)

Record USBInterfaceSetting := { getClass : Z }.

(** A device descriptor.  [configurations] is indexed as the source indexes
    [dev]: configuration, then interface, then alternate setting.
    [getProduct] is the outcome of the product-string query on this
    descriptor during the scan. *)
Record USBDevice := {
  getVendorID : Z;
  getProductID : Z;
  getBusNumber : nat;
  getPortNumberList : list nat;
  configurations : list (list (list USBInterfaceSetting));
  getProduct : Result string
}.

(** An open connection ([usb1.USBDeviceHandle]), known by its number. *)
Abbreviation USBDeviceHandle := nat.

Inductive Event :=
| EvOpen (dev : USBDevice)
| EvClaimInterface (hd : USBDeviceHandle) (interface : Z)
| EvReleaseInterface (hd : USBDeviceHandle) (interface : Z)
| EvClose (hd : USBDeviceHandle)
| EvInterruptWrite (hd : USBDeviceHandle) (endpoint : Z) (data : list byte)
| EvInterruptRead (hd : USBDeviceHandle) (endpoint : Z) (length : Z).

(** The bus driver: what each call answers, given the calls made so far.
    Every call may raise. *)
Record Driver := {
  drv_open : list Event -> USBDevice -> Result (option USBDeviceHandle);
  drv_claimInterface : list Event -> USBDeviceHandle -> Z -> Result unit;
  drv_releaseInterface : list Event -> USBDeviceHandle -> Z -> Result unit;
  drv_close : list Event -> USBDeviceHandle -> Result unit;
  drv_interruptWrite :
    list Event -> USBDeviceHandle -> Z -> list byte -> Result Z;
  drv_interruptRead :
    list Event -> USBDeviceHandle -> Z -> Z -> Result (list byte)
}.

(** ** Objects of this file *)

Abbreviation addr := nat.

Module WebUsbHandle.
Record t := mk {
  device : USBDevice;
  interface : Z;
  endpoint : Z;
  count : Z;
  handle : option USBDeviceHandle
}.
End WebUsbHandle.

(** The framing protocol is built by [get_protocol] of
    [trezorlib/transport/protocol.py]; this file only reads its [VERSION]. *)
Record Protocol := {
  VERSION : Z;
  protocol_handle : addr
}.

Module WebUsbTransport.
Record t := mk {
  device : USBDevice;
  handle : addr;
  debug : bool;
  protocol : Protocol
}.
End WebUsbTransport.

(** [usb1.USBContext]: the bus context kept in [cls.context]. *)
Record USBContext := { ctx_opened : bool }.

(** The state a call runs in: the two stores, the trace of driver calls, the
    number of milliseconds slept, the class attribute [context], the number of
    hooks registered with [atexit], and the devices now on the bus. *)
Record World := {
  handles : list WebUsbHandle.t;
  transports : list WebUsbTransport.t;
  trace : list Event;
  slept_ms : nat;
  context : option USBContext;
  atexit_hooks : nat;
  attached : list USBDevice
}.

Definition set_handles (f : list WebUsbHandle.t -> list WebUsbHandle.t)
  (w : World) : World :=
  {| handles := f (handles w); transports := transports w; trace := trace w;
     slept_ms := slept_ms w; context := context w;
     atexit_hooks := atexit_hooks w; attached := attached w |}.

Definition set_transports
  (f : list WebUsbTransport.t -> list WebUsbTransport.t) (w : World) : World :=
  {| handles := handles w; transports := f (transports w); trace := trace w;
     slept_ms := slept_ms w; context := context w;
     atexit_hooks := atexit_hooks w; attached := attached w |}.

Definition log (ev : Event) (w : World) : World :=
  {| handles := handles w; transports := transports w;
     trace := trace w ++ [ev];
     slept_ms := slept_ms w; context := context w;
     atexit_hooks := atexit_hooks w; attached := attached w |}.

(** ** The monad of the embedding: state that survives an exception *)

Definition M (A : Type) : Type := World -> Result A * World.

Definition ret {A} (a : A) : M A := fun w => (Ok a, w).

Definition raise {A} (e : Exn) : M A := fun w => (Raise e, w).

Definition bind {A B} (m : M A) (k : A -> M B) : M B :=
  fun w =>
    match m w with
    | (Ok a, w') => k a w'
    | (Raise e, w') => (Raise e, w')
    end.

(** [try: body except <catches>: handler] *)
Definition try_except {A} (body : M A) (catches : Exn -> bool)
  (handler : M A) : M A :=
  fun w =>
    match body w with
    | (Ok a, w') => (Ok a, w')
    | (Raise e, w') => if catches e then handler w' else (Raise e, w')
    end.

Declare Scope py_scope.
Delimit Scope py_scope with py.
Notation "x <- m ;; k" := (bind m (fun x => k))
  (at level 100, m at next level, right associativity) : py_scope.
Notation "m ;;; k" := (bind m (fun _ => k))
  (at level 100, right associativity) : py_scope.
Open Scope py_scope.

(** ** The store *)

(** Reading the object behind a reference.  Python references are always
    live; [DanglingReference] only makes the embedding total. *)
Definition load_handle (self : addr) : M WebUsbHandle.t :=
  fun w =>
    match handles w !! self with
    | Some h => (Ok h, w)
    | None => (Raise DanglingReference, w)
    end.

Definition load_transport (self : addr) : M WebUsbTransport.t :=
  fun w =>
    match transports w !! self with
    | Some t => (Ok t, w)
    | None => (Raise DanglingReference, w)
    end.

Definition with_handle (v : option USBDeviceHandle) (h : WebUsbHandle.t)
  : WebUsbHandle.t :=
  WebUsbHandle.mk (WebUsbHandle.device h) (WebUsbHandle.interface h)
    (WebUsbHandle.endpoint h) (WebUsbHandle.count h) v.

(** [self.handle = v] *)
Definition store_handle_field (self : addr) (v : option USBDeviceHandle)
  : M unit :=
  fun w =>
    match handles w !! self with
    | Some h => (Ok tt, set_handles (fun hs => <[self := with_handle v h]> hs) w)
    | None => (Raise DanglingReference, w)
    end.

Definition new_handle (h : WebUsbHandle.t) : M addr :=
  fun w => (Ok (length (handles w)), set_handles (fun hs => hs ++ [h]) w).

Definition new_transport (t : WebUsbTransport.t) : M addr :=
  fun w => (Ok (length (transports w)), set_transports (fun ts => ts ++ [t]) w).

(** [time.sleep(0.001)] *)
Definition sleep_1ms : M unit :=
  fun w =>
    (Ok tt,
     {| handles := handles w; transports := transports w; trace := trace w;
        slept_ms := S (slept_ms w); context := context w;
        atexit_hooks := atexit_hooks w; attached := attached w |}).

(** The two states of a chunk handle. *)
Definition is_open (h : WebUsbHandle.t) : bool :=
  match WebUsbHandle.handle h with Some _ => true | None => false end.

Definition is_closed (h : WebUsbHandle.t) : bool := negb (is_open h).

(** ** class WebUsbHandle *)

Section WebUsbHandle_methods.

Variable drv : Driver.
Variable sys_platform : string.

(** Calls into [usb1]: the driver answers from the trace so far, and the
    call is appended to the trace whether it returns or raises. *)
Definition usb_open (dev : USBDevice) : M (option USBDeviceHandle) :=
  fun w => (drv_open drv (trace w) dev, log (EvOpen dev) w).

Definition claimInterface (hd : USBDeviceHandle) (interface : Z) : M unit :=
  fun w =>
    (drv_claimInterface drv (trace w) hd interface,
     log (EvClaimInterface hd interface) w).

Definition releaseInterface (hd : USBDeviceHandle) (interface : Z) : M unit :=
  fun w =>
    (drv_releaseInterface drv (trace w) hd interface,
     log (EvReleaseInterface hd interface) w).

Definition usb_close (hd : USBDeviceHandle) : M unit :=
  fun w => (drv_close drv (trace w) hd, log (EvClose hd) w).

Definition interruptWrite (hd : USBDeviceHandle) (endpoint : Z)
  (data : list byte) : M Z :=
  fun w =>
    (drv_interruptWrite drv (trace w) hd endpoint data,
     log (EvInterruptWrite hd endpoint data) w).

Definition interruptRead (hd : USBDeviceHandle) (endpoint : Z) (length : Z)
  : M (list byte) :=
  fun w =>
    (drv_interruptRead drv (trace w) hd endpoint length,
     log (EvInterruptRead hd endpoint length) w).

(** [WebUsbHandle.__init__] *)
Definition WebUsbHandle_init (device : USBDevice) (debug : bool)
  : WebUsbHandle.t :=
  WebUsbHandle.mk device
    (if debug then DEBUG_INTERFACE else INTERFACE)
    (if debug then DEBUG_ENDPOINT else ENDPOINT)
    0
    None.

Definition udev_hint : string :=
  "Do you have udev rules installed? https://github.com/trezor/trezor-common/blob/master/udev/51-trezor.rules".

(** [WebUsbHandle.open] *)
Definition open (self : addr) : M unit :=
  h <- load_handle self ;;
  hd <- usb_open (WebUsbHandle.device h) ;;
  store_handle_field self hd ;;;
  h <- load_handle self ;;
  match WebUsbHandle.handle h with
  | None =>
      let args :=
        if String.prefix "linux" sys_platform then [udev_hint] else [] in
      raise (IOError ("Cannot open device" :: args))
  | Some hd => claimInterface hd (WebUsbHandle.interface h)
  end.

(** [WebUsbHandle.close] *)
Definition close (self : addr) : M unit :=
  h <- load_handle self ;;
  match WebUsbHandle.handle h with
  | Some hd =>
      releaseInterface hd (WebUsbHandle.interface h) ;;;
      usb_close hd
  | None => ret tt
  end ;;;
  store_handle_field self None.

Definition chunk_size_message (n : nat) : string :=
  "Unexpected chunk size: " ++ str_of_nat n.

(** [WebUsbHandle.write_chunk] *)
Definition write_chunk (self : addr) (chunk : list byte) : M unit :=
  h <- load_handle self ;;
  match WebUsbHandle.handle h with
  | None => raise AssertionError
  | Some hd =>
      if negb (Nat.eqb (length chunk) 64) then
        raise (TransportException (chunk_size_message (length chunk)))
      else
        interruptWrite hd (WebUsbHandle.endpoint h) chunk ;;;
        ret tt
  end.

(** Truth value of a [bytes] object: non-empty. *)
Definition truthy (chunk : list byte) : bool :=
  match chunk with [] => false | _ :: _ => true end.

(** The [while True] loop of [read_chunk], unrolled at most [fuel] times;
    [None] when the loop is still running after [fuel] iterations. *)
Fixpoint read_loop (fuel : nat) (hd : USBDeviceHandle) (endpoint : Z)
  (w : World) : option (Result (list byte) * World) :=
  match fuel with
  | O => None
  | S fuel' =>
      match interruptRead hd endpoint 64 w with
      | (Raise e, w1) => Some (Raise e, w1)
      | (Ok chunk, w1) =>
          if truthy chunk then Some (Ok chunk, w1)
          else read_loop fuel' hd endpoint (snd (sleep_1ms w1))
      end
  end.

(** [WebUsbHandle.read_chunk] *)
Definition read_chunk (fuel : nat) (self : addr) (w : World)
  : option (Result (list byte) * World) :=
  match load_handle self w with
  | (Raise e, w0) => Some (Raise e, w0)
  | (Ok h, w0) =>
      match WebUsbHandle.handle h with
      | None => Some (Raise AssertionError, w0)
      | Some hd =>
          let endpoint := Z.lor 0x80 (WebUsbHandle.endpoint h) in
          match read_loop fuel hd endpoint w0 with
          | None => None
          | Some (Raise e, w1) => Some (Raise e, w1)
          | Some (Ok chunk, w1) =>
              if negb (Nat.eqb (length chunk) 64) then
                Some (Raise (TransportException
                               (chunk_size_message (length chunk))), w1)
              else Some (Ok chunk, w1)
          end
      end
  end.

End WebUsbHandle_methods.

(** ** Module-level helpers *)

Definition pair_eqb (a b : Z * Z) : bool :=
  Z.eqb (fst a) (fst b) && Z.eqb (snd a) (snd b).

Definition is_trezor1 (dev : USBDevice) : bool :=
  pair_eqb (getVendorID dev, getProductID dev) DEV_TREZOR1.

Definition is_trezor2 (dev : USBDevice) : bool :=
  pair_eqb (getVendorID dev, getProductID dev) DEV_TREZOR2.

Definition is_trezor2_bl (dev : USBDevice) : bool :=
  pair_eqb (getVendorID dev, getProductID dev) DEV_TREZOR2_BL.

(** Indexing a [usb1] descriptor out of range raises [IndexError]. *)
Definition index {A} (l : list A) (i : Z) : Result A :=
  match l !! Z.to_nat i with
  | Some x => if Z.leb 0 i then Ok x else Raise IndexError
  | None => Raise IndexError
  end.

Definition is_vendor_class (dev : USBDevice) : Result bool :=
  let configurationId := 0 in
  let altSettingId := 0 in
  match index (configurations dev) configurationId with
  | Raise e => Raise e
  | Ok cfg =>
      match index cfg INTERFACE with
      | Raise e => Raise e
      | Ok itf =>
          match index itf altSettingId with
          | Raise e => Raise e
          | Ok setting => Ok (Z.eqb (getClass setting) LIBUSB_CLASS_VENDOR_SPEC)
          end
      end
  end.

Definition dev_to_str (dev : USBDevice) : string :=
  join ":" (map str ([PyStr (fmt_03i (getBusNumber dev))]
                     ++ map PyInt (getPortNumberList dev))).

(** ** class WebUsbTransport *)

Definition lift {A} (r : Result A) : M A := fun w => (r, w).

Section WebUsbTransport_methods.

(** [get_protocol] is imported from [trezorlib/transport/protocol.py]. *)
Variable get_protocol : addr -> bool -> Protocol.

Definition PATH_PREFIX : string := "webusb".

(** [WebUsbTransport.__init__] *)
Definition WebUsbTransport_init (device : USBDevice) (handle : option addr)
  (debug : bool) : M addr :=
  handle <- match handle with
            | None => new_handle (WebUsbHandle_init device debug)
            | Some a => ret a
            end ;;
  let protocol := get_protocol handle (is_trezor2 device) in
  new_transport (WebUsbTransport.mk device handle debug protocol).

(** [WebUsbTransport.get_path] *)
Definition get_path (self : addr) : M string :=
  t <- load_transport self ;;
  ret (PATH_PREFIX ++ ":" ++ dev_to_str (WebUsbTransport.device t))%string.

(** [cls.context] is created on the first call only. *)
Definition ensure_context : M unit :=
  fun w =>
    match context w with
    | Some _ => (Ok tt, w)
    | None =>
        (Ok tt,
         {| handles := handles w; transports := transports w;
            trace := trace w; slept_ms := slept_ms w;
            context := Some {| ctx_opened := true |};
            atexit_hooks := S (atexit_hooks w); attached := attached w |})
    end.

(** [cls.context.getDeviceIterator(skip_on_error=True)], as the list of the
    devices it yields. *)
Definition getDeviceIterator : M (list USBDevice) :=
  fun w => (Ok (attached w), w).

(** The body of the [for] loop of [enumerate], over the devices left. *)
Fixpoint enumerate_loop (devs : list USBDevice) (devices : list addr)
  : M (list addr) :=
  match devs with
  | [] => ret devices
  | dev :: rest =>
      if negb (is_trezor1 dev || is_trezor2 dev || is_trezor2_bl dev) then
        enumerate_loop rest devices
      else
        vendor <- lift (is_vendor_class dev) ;;
        if negb vendor then enumerate_loop rest devices
        else
          devices' <-
            try_except
              (lift (getProduct dev) ;;;
               t <- WebUsbTransport_init dev None false ;;
               ret (devices ++ [t]))
              is_USBErrorNotSupported
              (ret devices) ;;
          enumerate_loop rest devices'
  end.

(** [WebUsbTransport.enumerate] *)
Definition enumerate : M (list addr) :=
  ensure_context ;;;
  devs <- getDeviceIterator ;;
  enumerate_loop devs [].

(** [WebUsbTransport.find_debug] *)
Definition find_debug (self : addr) : M addr :=
  t <- load_transport self ;;
  if Z.geb (VERSION (WebUsbTransport.protocol t)) 2 then
    WebUsbTransport_init (WebUsbTransport.device t)
      (Some (WebUsbTransport.handle t)) false
  else
    WebUsbTransport_init (WebUsbTransport.device t) None true.

End WebUsbTransport_methods.

(** ** Definitions used in the statements *)

(** Reading a decimal string back. *)
Definition nat_of_str (s : string) : option nat :=
  option_map Nat.of_uint (NilEmpty.uint_of_string s).

(** The state after [self.handle = v], following the device open. *)
Definition opened_world (self : addr) (h : WebUsbHandle.t)
  (v : option USBDeviceHandle) (w : World) : World :=
  set_handles (fun hs => <[self := with_handle v h]> hs)
    (log (EvOpen (WebUsbHandle.device h)) w).

(** The error of [open] when the device open returns no handle. *)
Definition cannot_open (sys_platform : string) : Exn :=
  IOError ("Cannot open device"
           :: if String.prefix "linux" sys_platform then [udev_hint] else []).

(** The state after a [close] whose two driver calls returned. *)
Definition closed_world (self : addr) (h : WebUsbHandle.t)
  (hd : USBDeviceHandle) (w : World) : World :=
  set_handles (fun hs => <[self := with_handle None h]> hs)
    (log (EvClose hd)
       (log (EvReleaseInterface hd (WebUsbHandle.interface h)) w)).

(** ** Concrete drivers, devices and states *)

Definition chunk64 : list byte := repeat Byte.x2a 64.

(** A driver that answers every call: the device opens as connection 1,
    writes are taken whole, reads find nothing. *)
Definition steady_driver : Driver :=
  {| drv_open := fun _ _ => Ok (Some 1%nat);
     drv_claimInterface := fun _ _ _ => Ok tt;
     drv_releaseInterface := fun _ _ _ => Ok tt;
     drv_close := fun _ _ => Ok tt;
     drv_interruptWrite := fun _ _ _ data => Ok (Z.of_nat (length data));
     drv_interruptRead := fun _ _ _ _ => Ok [] |}.

(** The interface is held by another process: the claim is refused. *)
Definition busy_driver : Driver :=
  {| drv_open := fun _ _ => Ok (Some 1%nat);
     drv_claimInterface := fun _ _ _ => Raise (USBError ErrBusy);
     drv_releaseInterface := fun _ _ _ => Ok tt;
     drv_close := fun _ _ => Ok tt;
     drv_interruptWrite := fun _ _ _ data => Ok (Z.of_nat (length data));
     drv_interruptRead := fun _ _ _ _ => Ok [] |}.

(** The device has been unplugged: releasing the interface fails. *)
Definition unplugged_driver : Driver :=
  {| drv_open := fun _ _ => Ok (Some 1%nat);
     drv_claimInterface := fun _ _ _ => Ok tt;
     drv_releaseInterface := fun _ _ _ => Raise (USBError ErrNoDevice);
     drv_close := fun _ _ => Ok tt;
     drv_interruptWrite := fun _ _ _ data => Ok (Z.of_nat (length data));
     drv_interruptRead := fun _ _ _ _ => Ok [] |}.

(** No device answers [open] with a connection. *)
Definition denied_driver : Driver :=
  {| drv_open := fun _ _ => Ok None;
     drv_claimInterface := fun _ _ _ => Ok tt;
     drv_releaseInterface := fun _ _ _ => Ok tt;
     drv_close := fun _ _ => Ok tt;
     drv_interruptWrite := fun _ _ _ data => Ok (Z.of_nat (length data));
     drv_interruptRead := fun _ _ _ _ => Ok [] |}.

(** A Trezor One on bus 7, ports 2 then 1, with a vendor-class interface. *)
Definition trezor1_dev : USBDevice :=
  {| getVendorID := 0x534c; getProductID := 0x0001;
     getBusNumber := 7; getPortNumberList := [2; 1]%nat;
     configurations := [[[ {| getClass := 0xff |} ]]];
     getProduct := Ok "TREZOR" |}.

(** The same identity as a Trezor T, enumerated through its HID interface. *)
Definition hid_dev : USBDevice :=
  {| getVendorID := 0x1209; getProductID := 0x53c1;
     getBusNumber := 7; getPortNumberList := [3]%nat;
     configurations := [[[ {| getClass := 0x03 |} ]]];
     getProduct := Ok "TREZOR" |}.

(** A device of another vendor. *)
Definition other_dev : USBDevice :=
  {| getVendorID := 0x046d; getProductID := 0xc52b;
     getBusNumber := 1; getPortNumberList := [4]%nat;
     configurations := [[[ {| getClass := 0x03 |} ]]];
     getProduct := Ok "USB Receiver" |}.

Definition empty_world : World :=
  {| handles := []; transports := []; trace := []; slept_ms := 0;
     context := None; atexit_hooks := 0; attached := [] |}.

(** One chunk handle on [trezor1_dev], at address 0, with [self.handle] as
    given. *)
Definition handle_world (v : option USBDeviceHandle) : World :=
  {| handles := [with_handle v (WebUsbHandle_init trezor1_dev false)];
     transports := []; trace := []; slept_ms := 0;
     context := None; atexit_hooks := 0; attached := [] |}.

(** ** The reads of [read_chunk], as the driver sees them *)

(** The endpoint [read_chunk] reads from. *)
Definition endpoint_in (h : WebUsbHandle.t) : Z :=
  Z.lor 0x80 (WebUsbHandle.endpoint h).

(** The answer of the driver to the read that comes after [k] reads of the
    loop, started in [w]. *)
Definition nth_read (drv : Driver) (hd : USBDeviceHandle) (ep : Z) (k : nat)
  (w : World) : Result (list byte) :=
  drv_interruptRead drv (trace w ++ repeat (EvInterruptRead hd ep 64) k)
    hd ep 64.

(** The state after [n] reads that found nothing, each followed by a sleep
    of one millisecond. *)
Definition after_empty_reads (hd : USBDeviceHandle) (ep : Z) (n : nat)
  (w : World) : World :=
  {| handles := handles w; transports := transports w;
     trace := trace w ++ repeat (EvInterruptRead hd ep 64) n;
     slept_ms := slept_ms w + n; context := context w;
     atexit_hooks := atexit_hooks w; attached := attached w |}.

(** Reads find nothing three times, then a full chunk. *)
Definition late_driver : Driver :=
  {| drv_open := fun _ _ => Ok (Some 1%nat);
     drv_claimInterface := fun _ _ _ => Ok tt;
     drv_releaseInterface := fun _ _ _ => Ok tt;
     drv_close := fun _ _ => Ok tt;
     drv_interruptWrite := fun _ _ _ data => Ok (Z.of_nat (length data));
     drv_interruptRead :=
       fun t _ _ _ => if (length t <? 3)%nat then Ok [] else Ok chunk64 |}.

(** ** Enumeration, as the statements speak of it *)

(** The identity filter of [enumerate]: one of the three supported
    (vendor ID, product ID) pairs. *)
Definition supported (dev : USBDevice) : bool :=
  is_trezor1 dev || is_trezor2 dev || is_trezor2_bl dev.

(** A descriptor that passes every filter of [enumerate]: supported
    identity, vendor-specific class, and a product-string query that
    returns. *)
Definition accepted (dev : USBDevice) : bool :=
  supported dev
  && match is_vendor_class dev with Ok true => true | _ => false end
  && match getProduct dev with Ok _ => true | Raise _ => false end.

(** A descriptor on which the scan raises nothing. *)
Definition scan_quiet (dev : USBDevice) : bool :=
  negb (supported dev)
  || match is_vendor_class dev with
     | Raise _ => false
     | Ok false => true
     | Ok true =>
         match getProduct dev with
         | Ok _ => true
         | Raise e => is_USBErrorNotSupported e
         end
     end.

(** The state after [WebUsbTransport(device, debug=debug)]: a new chunk
    handle, and a new transport that refers to it. *)
Definition init_world (get_protocol : addr -> bool -> Protocol)
  (device : USBDevice) (debug : bool) (w : World) : World :=
  set_transports
    (fun ts =>
       ts ++ [WebUsbTransport.mk device (length (handles w)) debug
                (get_protocol (length (handles w)) (is_trezor2 device))])
    (set_handles (fun hs => hs ++ [WebUsbHandle_init device debug]) w).

(** The state after [WebUsbTransport(device, handle)]: a new transport that
    refers to a handle already in the store. *)
Definition share_world (get_protocol : addr -> bool -> Protocol)
  (device : USBDevice) (handle : addr) (w : World) : World :=
  set_transports
    (fun ts =>
       ts ++ [WebUsbTransport.mk device handle false
                (get_protocol handle (is_trezor2 device))])
    w.

(** The transports built for the devices [ds], the first over a handle at
    address [nh]. *)
Fixpoint new_transports (get_protocol : addr -> bool -> Protocol)
  (ds : list USBDevice) (nh : addr) : list WebUsbTransport.t :=
  match ds with
  | [] => []
  | d :: ds' =>
      WebUsbTransport.mk d nh false (get_protocol nh (is_trezor2 d))
      :: new_transports get_protocol ds' (S nh)
  end.

(** The state after one [WebUsbTransport(dev)] for each device of [ds]. *)
Definition scanned_world (get_protocol : addr -> bool -> Protocol)
  (ds : list USBDevice) (w : World) : World :=
  set_transports
    (fun ts => ts ++ new_transports get_protocol ds (length (handles w)))
    (set_handles
       (fun hs => hs ++ map (fun d => WebUsbHandle_init d false) ds) w).

(** A framing protocol of version 2 for a capable device, of version 1 for
    the others. *)
Definition protocol_by_capability (handle : addr) (want_v2 : bool)
  : Protocol :=
  {| VERSION := if want_v2 then 2 else 1; protocol_handle := handle |}.

(** A Trezor T. *)
Definition trezor2_dev : USBDevice :=
  {| getVendorID := 0x1209; getProductID := 0x53c1;
     getBusNumber := 3; getPortNumberList := [1]%nat;
     configurations := [[[ {| getClass := 0xff |} ]]];
     getProduct := Ok "TREZOR" |}.

(** The bus of the enumeration scenario: a Trezor One, a look-alike on its
    HID interface, and a device of another vendor. *)
Definition scenario_world : World :=
  {| handles := []; transports := []; trace := []; slept_ms := 0;
     context := None; atexit_hooks := 0;
     attached := [trezor1_dev; hid_dev; other_dev] |}.

(** One transport over device [dev], with its chunk handle. *)
Definition transport_world (dev : USBDevice) : World :=
  init_world protocol_by_capability dev false empty_world.

(** ** The path, as the specification words it *)

(** The bus number in decimal, with zeros in front up to three digits. *)
Definition three_digits (n : nat) : string :=
  if (n <? 10)%nat then "00" ++ str_of_nat n
  else if (n <? 100)%nat then "0" ++ str_of_nat n
  else str_of_nat n.

(** The prefix, the padded bus number and the port numbers in order, joined
    by colons. *)
Definition path_of (bus : nat) (ports : list nat) : string :=
  join ":" ("webusb" :: three_digits bus :: map str_of_nat ports).

(** A duplicate entry that does not answer the product-string query. *)
Definition ghost_dev : USBDevice :=
  {| getVendorID := 0x1209; getProductID := 0x53c1;
     getBusNumber := 3; getPortNumberList := [1]%nat;
     configurations := [[[ {| getClass := 0xff |} ]]];
     getProduct := Raise (USBError ErrNotSupported) |}.

(** A Trezor T whose product-string query fails on a stalled pipe. *)
Definition stalled_dev : USBDevice :=
  {| getVendorID := 0x1209; getProductID := 0x53c1;
     getBusNumber := 3; getPortNumberList := [2]%nat;
     configurations := [[[ {| getClass := 0xff |} ]]];
     getProduct := Raise (USBError ErrPipe) |}.

Definition bus_world (devs : list USBDevice) : World :=
  {| handles := []; transports := []; trace := []; slept_ms := 0;
     context := None; atexit_hooks := 0; attached := devs |}.

(** A chunk one byte too long. *)
Definition chunk65 : list byte := repeat Byte.x2a 65.

(** ** Definitions for the further properties *)

(** Between [w] and [w'] nothing of the two stores changed but, at most, the
    connection held in [self.handle]. *)
Definition only_connection_changed (self : addr) (w w' : World) : Prop :=
  transports w' = transports w
  /\ length (handles w') = length (handles w)
  /\ (forall a, a <> self -> handles w' !! a = handles w !! a)
  /\ (forall h, handles w !! self = Some h ->
        exists v, handles w' !! self = Some (with_handle v h)).

(** Every transport of the store refers to a chunk handle of the store. *)
Definition wf_store (w : World) : Prop :=
  forall a t,
    transports w !! a = Some t ->
    (WebUsbTransport.handle t < length (handles w))%nat.

(** Reads find nothing twice, then the device is gone. *)
Definition vanishing_driver : Driver :=
  {| drv_open := fun _ _ => Ok (Some 1%nat);
     drv_claimInterface := fun _ _ _ => Ok tt;
     drv_releaseInterface := fun _ _ _ => Ok tt;
     drv_close := fun _ _ => Ok tt;
     drv_interruptWrite := fun _ _ _ data => Ok (Z.of_nat (length data));
     drv_interruptRead :=
       fun t _ _ _ =>
         if (length t <? 2)%nat then Ok [] else Raise (USBError ErrNoDevice) |}.

(** The setting that [is_vendor_class] looks at: configuration 0,
    interface 0, alternate setting 0. *)
Definition first_setting (dev : USBDevice) : option USBInterfaceSetting :=
  match configurations dev !! 0%nat with
  | Some cfg =>
      match cfg !! 0%nat with
      | Some itf => itf !! 0%nat
      | None => None
      end
  | None => None
  end.

(** A Trezor T whose descriptor lists no configuration. *)
Definition bare_dev : USBDevice :=
  {| getVendorID := 0x1209; getProductID := 0x53c1;
     getBusNumber := 3; getPortNumberList := [1]%nat;
     configurations := [];
     getProduct := Ok "TREZOR" |}.

(** ** Reading a path back *)

Fixpoint no_colon (s : string) : bool :=
  match s with
  | EmptyString => true
  | String c s' => negb (Ascii.eqb c ":") && no_colon s'
  end.

(** The fields of a string, cut at every colon. *)
Fixpoint split_colon (s : string) : list string :=
  match s with
  | EmptyString => [EmptyString]
  | String c s' =>
      if Ascii.eqb c ":" then EmptyString :: split_colon s'
      else
        match split_colon s' with
        | [] => [String c EmptyString]
        | field :: fields => String c field :: fields
        end
  end.

Fixpoint parse_numbers (fields : list string) : option (list nat) :=
  match fields with
  | [] => Some []
  | field :: fields' =>
      match nat_of_str field, parse_numbers fields' with
      | Some n, Some ns => Some (n :: ns)
      | _, _ => None
      end
  end.

(** The bus number and the port numbers that a path names. *)
Definition parse_path (s : string) : option (nat * list nat) :=
  match split_colon s with
  | prefix :: bus :: ports =>
      if String.eqb prefix "webusb" then
        match nat_of_str bus, parse_numbers ports with
        | Some b, Some ps => Some (b, ps)
        | _, _ => None
        end
      else None
  | _ => None
  end.

(** A hub on bus 1, port 4, and a Trezor One behind its port 2. *)
Definition hub_dev : USBDevice :=
  {| getVendorID := 0x05e3; getProductID := 0x0608;
     getBusNumber := 1; getPortNumberList := [4]%nat;
     configurations := [[[ {| getClass := 0x09 |} ]]];
     getProduct := Ok "USB2.0 Hub" |}.

Definition trezor_behind_hub : USBDevice :=
  {| getVendorID := 0x534c; getProductID := 0x0001;
     getBusNumber := 1; getPortNumberList := [4; 2]%nat;
     configurations := [[[ {| getClass := 0xff |} ]]];
     getProduct := Ok "TREZOR" |}.

(** What [get_path] answers for each of the transports at [addrs]. *)
Definition paths_of (w : World) (addrs : list addr) : list (Result string) :=
  map (fun a => fst (get_path a w)) addrs.

(** The path that the descriptor [dev] gets. *)
Definition dev_path (dev : USBDevice) : Result string :=
  Ok (path_of (getBusNumber dev) (getPortNumberList dev)).

(** The error, if any, that the scan raises on a descriptor. *)
Definition scan_error (dev : USBDevice) : option Exn :=
  if negb (supported dev) then None
  else
    match is_vendor_class dev with
    | Raise e => Some e
    | Ok false => None
    | Ok true =>
        match getProduct dev with
        | Ok _ => None
        | Raise e => if is_USBErrorNotSupported e then None else Some e
        end
    end.

(** The error of the first descriptor, in bus order, on which the scan
    raises. *)
Fixpoint first_scan_error (devs : list USBDevice) : option Exn :=
  match devs with
  | [] => None
  | dev :: rest =>
      match scan_error dev with
      | Some e => Some e
      | None => first_scan_error rest
      end
  end.

(** The interface is released, but closing the connection fails. *)
Definition jammed_driver : Driver :=
  {| drv_open := fun _ _ => Ok (Some 1%nat);
     drv_claimInterface := fun _ _ _ => Ok tt;
     drv_releaseInterface := fun _ _ _ => Ok tt;
     drv_close := fun _ _ => Raise (USBError ErrIO);
     drv_interruptWrite := fun _ _ _ data => Ok (Z.of_nat (length data));
     drv_interruptRead := fun _ _ _ _ => Ok [] |}.

(** * Properties *)

(** ** Decimal rendering *)

Lemma nat_of_str_of_nat (n : nat) : nat_of_str (str_of_nat n) = Some n.
Proof.
  unfold nat_of_str, str_of_nat.
  rewrite NilEmpty.usu. simpl. f_equal. apply Unsigned.of_to.
Qed.

Lemma str_of_nat_inj (n m : nat) : str_of_nat n = str_of_nat m -> n = m.
Proof.
  intros E. apply (f_equal nat_of_str) in E.
  rewrite !nat_of_str_of_nat in E. congruence.
Qed.

Lemma append_inj_l (p s1 s2 : string) : (p ++ s1 = p ++ s2)%string -> s1 = s2.
Proof.
  induction p as [|c p IH]; simpl; intros E; [assumption|].
  injection E as E. auto.
Qed.

(** The message of a chunk-size error tells the length apart. *)
Lemma chunk_size_message_inj (n m : nat) :
  chunk_size_message n = chunk_size_message m -> n = m.
Proof.
  unfold chunk_size_message. intros E.
  apply append_inj_l in E. now apply str_of_nat_inj.
Qed.

(** ** Unfolding the monad *)

Lemma bind_ok {A B} (m : M A) (k : A -> M B) w a w' :
  m w = (Ok a, w') -> bind m k w = k a w'.
Proof. intros E. unfold bind. now rewrite E. Qed.

Lemma bind_raise {A B} (m : M A) (k : A -> M B) w e w' :
  m w = (Raise e, w') -> bind m k w = (Raise e, w').
Proof. intros E. unfold bind. now rewrite E. Qed.

Lemma load_handle_ok self w h :
  handles w !! self = Some h -> load_handle self w = (Ok h, w).
Proof. intros E. unfold load_handle. now rewrite E. Qed.

Lemma load_transport_ok self w t :
  transports w !! self = Some t -> load_transport self w = (Ok t, w).
Proof. intros E. unfold load_transport. now rewrite E. Qed.

(** ** write_chunk *)

Section write_chunk_facts.

Variable drv : Driver.

Lemma write_chunk_open self chunk w h hd :
  handles w !! self = Some h ->
  WebUsbHandle.handle h = Some hd ->
  write_chunk drv self chunk w =
    if negb (Nat.eqb (length chunk) 64) then
      (Raise (TransportException (chunk_size_message (length chunk))), w)
    else
      (match drv_interruptWrite drv (trace w) hd (WebUsbHandle.endpoint h) chunk
       with
       | Ok _ => Ok tt
       | Raise e => Raise e
       end,
       log (EvInterruptWrite hd (WebUsbHandle.endpoint h) chunk) w).
Proof.
  intros Hself Hopen. unfold write_chunk.
  rewrite (bind_ok _ _ _ _ _ (load_handle_ok _ _ _ Hself)).
  rewrite Hopen.
  destruct (negb (Nat.eqb (length chunk) 64)); [reflexivity|].
  unfold bind, interruptWrite, ret.
  now destruct (drv_interruptWrite _ _ _ _ _).
Qed.

Lemma write_chunk_bad_size_world self chunk w :
  length chunk <> 64%nat -> snd (write_chunk drv self chunk w) = w.
Proof.
  intros Hlen. unfold write_chunk, bind, load_handle.
  destruct (handles w !! self) as [h|]; [|reflexivity].
  destruct (WebUsbHandle.handle h) as [hd|]; [|reflexivity].
  apply Nat.eqb_neq in Hlen. now rewrite Hlen.
Qed.

(** C1: on an Open handle, [write_chunk] of a chunk whose length is not 64
    raises the chunk-size error whose message is "Unexpected chunk size: "
    followed by the decimal length of the input; of a 64-byte chunk, it
    performs exactly one interrupt write of that chunk to the endpoint of the
    handle and returns when that write returns (the only possible error is
    one raised by the driver's write itself). *)
Theorem write_chunk_checks_size self chunk w h hd :
  handles w !! self = Some h ->
  WebUsbHandle.handle h = Some hd ->
  (length chunk <> 64%nat ->
   fst (write_chunk drv self chunk w) =
     Raise (TransportException
              ("Unexpected chunk size: " ++ str_of_nat (length chunk))%string)
   /\ nat_of_str (str_of_nat (length chunk)) = Some (length chunk))
  /\
  (length chunk = 64%nat ->
   trace (snd (write_chunk drv self chunk w)) =
     trace w ++ [EvInterruptWrite hd (WebUsbHandle.endpoint h) chunk]
   /\ (forall n,
         drv_interruptWrite drv (trace w) hd (WebUsbHandle.endpoint h) chunk
           = Ok n ->
         fst (write_chunk drv self chunk w) = Ok tt)
   /\ (forall e,
         fst (write_chunk drv self chunk w) = Raise e ->
         drv_interruptWrite drv (trace w) hd (WebUsbHandle.endpoint h) chunk
           = Raise e)).
Proof.
  intros Hself Hopen.
  rewrite (write_chunk_open _ _ _ _ _ Hself Hopen).
  split; intros Hlen.
  - apply Nat.eqb_neq in Hlen. rewrite Hlen. simpl.
    split; [reflexivity | apply nat_of_str_of_nat].
  - rewrite Hlen. simpl. split; [reflexivity|].
    split.
    + intros n E. now rewrite E.
    + intros e.
      destruct (drv_interruptWrite _ _ _ _ _) as [n|e']; simpl; intros E;
        [discriminate | now injection E as ->].
Qed.

(** C10: whatever the state of the handle, a chunk whose length is not 64
    leaves the whole state as it was, so no interrupt write is made and the
    trace of driver calls is unchanged; on an Open handle the call raises the
    chunk-size error. *)
Theorem write_chunk_rejects_before_bus self chunk w :
  length chunk <> 64%nat ->
  snd (write_chunk drv self chunk w) = w
  /\ trace (snd (write_chunk drv self chunk w)) = trace w
  /\ (forall h hd,
        handles w !! self = Some h ->
        WebUsbHandle.handle h = Some hd ->
        fst (write_chunk drv self chunk w) =
          Raise (TransportException (chunk_size_message (length chunk)))).
Proof.
  intros Hlen.
  pose proof (write_chunk_bad_size_world self chunk w Hlen) as Hw.
  split; [assumption|]. split; [now rewrite Hw|].
  intros h hd Hself Hopen.
  rewrite (write_chunk_open _ _ _ _ _ Hself Hopen).
  apply Nat.eqb_neq in Hlen. now rewrite Hlen.
Qed.

End write_chunk_facts.

(** ** open and close *)

Lemma with_handle_same (h : WebUsbHandle.t) :
  with_handle (WebUsbHandle.handle h) h = h.
Proof. now destruct h. Qed.

Lemma set_handles_insert_same self h w :
  handles w !! self = Some h ->
  set_handles (fun hs => <[self := h]> hs) w = w.
Proof.
  intros E. unfold set_handles. rewrite (list_insert_id _ _ _ E).
  now destruct w.
Qed.

Lemma store_handle_field_ok self v w h :
  handles w !! self = Some h ->
  store_handle_field self v w =
    (Ok tt, set_handles (fun hs => <[self := with_handle v h]> hs) w).
Proof. intros E. unfold store_handle_field. now rewrite E. Qed.

Lemma lookup_after_store self (h h' : WebUsbHandle.t) w :
  handles w !! self = Some h ->
  handles (set_handles (fun hs => <[self := h']> hs) w) !! self = Some h'.
Proof.
  intros E. simpl. apply list_lookup_insert_eq.
  now apply lookup_lt_Some in E.
Qed.

Section open_close_facts.

Variable drv : Driver.
Variable sys_platform : string.

Lemma open_unfold self w h :
  handles w !! self = Some h ->
  open drv sys_platform self w =
    match drv_open drv (trace w) (WebUsbHandle.device h) with
    | Raise e => (Raise e, log (EvOpen (WebUsbHandle.device h)) w)
    | Ok None => (Raise (cannot_open sys_platform), opened_world self h None w)
    | Ok (Some hd) =>
        (drv_claimInterface drv (trace w ++ [EvOpen (WebUsbHandle.device h)])
           hd (WebUsbHandle.interface h),
         log (EvClaimInterface hd (WebUsbHandle.interface h))
           (opened_world self h (Some hd) w))
    end.
Proof.
  intros Hself. unfold open.
  rewrite (bind_ok _ _ _ _ _ (load_handle_ok _ _ _ Hself)).
  unfold bind at 1. unfold usb_open.
  destruct (drv_open drv (trace w) (WebUsbHandle.device h)) as [v|e];
    [|reflexivity].
  assert (Hlog : handles (log (EvOpen (WebUsbHandle.device h)) w) !! self
                 = Some h) by exact Hself.
  rewrite (bind_ok _ _ _ _ _ (store_handle_field_ok _ v _ _ Hlog)).
  rewrite (bind_ok _ _ _ _ _
             (load_handle_ok _ _ _
                (lookup_after_store _ _ (with_handle v h) _ Hlog))).
  destruct v as [hd|]; reflexivity.
Qed.

(** C2, as the code has it: [open] leaves the handle Closed whenever the
    device open fails.  When the device open returns no handle, [open] raises
    the error "Cannot open device", with the udev hint as a second argument
    when the platform name starts with "linux" and alone otherwise, no
    interface is claimed and the handle is Closed; when the device open
    itself raises, the error propagates and the store is unchanged.  When the
    device open and the claim both succeed, [open] returns and the handle is
    Open.  An error raised by the claim propagates to the caller. *)
Theorem open_closed_unless_device_opened self w h :
  handles w !! self = Some h ->
  let dev := WebUsbHandle.device h in
  (drv_open drv (trace w) dev = Ok None ->
   fst (open drv sys_platform self w) =
     Raise (IOError ("Cannot open device"
                     :: if String.prefix "linux" sys_platform
                        then [udev_hint] else []))
   /\ handles (snd (open drv sys_platform self w)) !! self
      = Some (with_handle None h)
   /\ is_closed (with_handle None h) = true
   /\ trace (snd (open drv sys_platform self w)) = trace w ++ [EvOpen dev])
  /\
  (forall e,
     drv_open drv (trace w) dev = Raise e ->
     fst (open drv sys_platform self w) = Raise e
     /\ handles (snd (open drv sys_platform self w)) = handles w)
  /\
  (forall hd,
     drv_open drv (trace w) dev = Ok (Some hd) ->
     drv_claimInterface drv (trace w ++ [EvOpen dev]) hd
       (WebUsbHandle.interface h) = Ok tt ->
     fst (open drv sys_platform self w) = Ok tt
     /\ handles (snd (open drv sys_platform self w)) !! self
        = Some (with_handle (Some hd) h)
     /\ is_open (with_handle (Some hd) h) = true
     /\ trace (snd (open drv sys_platform self w)) =
          trace w ++ [EvOpen dev;
                      EvClaimInterface hd (WebUsbHandle.interface h)])
  /\
  (forall hd e,
     drv_open drv (trace w) dev = Ok (Some hd) ->
     drv_claimInterface drv (trace w ++ [EvOpen dev]) hd
       (WebUsbHandle.interface h) = Raise e ->
     fst (open drv sys_platform self w) = Raise e).
Proof.
  intros Hself dev. rewrite (open_unfold _ _ _ Hself). fold dev.
  assert (Hlt : (self < length (handles w))%nat)
    by (now apply lookup_lt_Some in Hself).
  split; [|split; [|split]].
  - intros E. rewrite E. simpl.
    split; [reflexivity|]. split; [now apply list_lookup_insert_eq|].
    split; reflexivity.
  - intros e E. rewrite E. split; reflexivity.
  - intros hd E Hclaim. rewrite E, Hclaim. simpl.
    split; [reflexivity|]. split; [now apply list_lookup_insert_eq|].
    split; [reflexivity|]. now rewrite <- app_assoc.
  - intros hd e E Hclaim. rewrite E, Hclaim. reflexivity.
Qed.

Lemma close_closed self w h :
  handles w !! self = Some h ->
  WebUsbHandle.handle h = None ->
  close drv self w = (Ok tt, w).
Proof.
  intros Hself Hnone. unfold close.
  rewrite (bind_ok _ _ _ _ _ (load_handle_ok _ _ _ Hself)).
  rewrite Hnone. unfold bind at 1. unfold ret.
  rewrite (store_handle_field_ok _ _ _ _ Hself).
  rewrite <- Hnone, with_handle_same.
  f_equal. now apply set_handles_insert_same.
Qed.

Lemma close_open_unfold self w h hd :
  handles w !! self = Some h ->
  WebUsbHandle.handle h = Some hd ->
  close drv self w =
    let itf := WebUsbHandle.interface h in
    match drv_releaseInterface drv (trace w) hd itf with
    | Raise e => (Raise e, log (EvReleaseInterface hd itf) w)
    | Ok _ =>
        match drv_close drv (trace w ++ [EvReleaseInterface hd itf]) hd with
        | Raise e =>
            (Raise e, log (EvClose hd) (log (EvReleaseInterface hd itf) w))
        | Ok _ => (Ok tt, closed_world self h hd w)
        end
    end.
Proof.
  intros Hself Hopen. unfold close.
  rewrite (bind_ok _ _ _ _ _ (load_handle_ok _ _ _ Hself)).
  rewrite Hopen. cbv zeta.
  unfold bind, releaseInterface, usb_close.
  destruct (drv_releaseInterface drv (trace w) hd (WebUsbHandle.interface h))
    as [[]|e]; [|reflexivity].
  simpl trace.
  destruct (drv_close drv _ hd) as [[]|e]; [|reflexivity].
  unfold store_handle_field. simpl handles. now rewrite Hself.
Qed.

End open_close_facts.

Section close_facts.

Variable drv : Driver.

(** C5, as the code has it: on an already-Closed handle [close] changes
    nothing and calls nothing; on an Open handle it releases the claimed
    interface, then closes the connection, and leaves the handle Closed,
    provided these two driver calls return; a second [close] in succession is
    then a no-op and the pair behaves as one [close].  [close] raises nothing
    of its own: an error can only be the one raised by the driver's release
    or close.  And such an error propagates: when the release raises, [close]
    raises that error without calling the driver's close; when the release
    returns and the driver's close raises, [close] raises that error. *)
Theorem close_idempotent_when_driver_returns self w h :
  handles w !! self = Some h ->
  (WebUsbHandle.handle h = None -> close drv self w = (Ok tt, w))
  /\
  (forall hd,
     WebUsbHandle.handle h = Some hd ->
     let itf := WebUsbHandle.interface h in
     drv_releaseInterface drv (trace w) hd itf = Ok tt ->
     drv_close drv (trace w ++ [EvReleaseInterface hd itf]) hd = Ok tt ->
     let w' := snd (close drv self w) in
     fst (close drv self w) = Ok tt
     /\ trace w' = trace w ++ [EvReleaseInterface hd itf; EvClose hd]
     /\ handles w' !! self = Some (with_handle None h)
     /\ is_closed (with_handle None h) = true
     /\ close drv self w' = (Ok tt, w')
     /\ (close drv self ;;; close drv self) w = (Ok tt, w'))
  /\
  (forall e,
     fst (close drv self w) = Raise e ->
     exists hd,
       WebUsbHandle.handle h = Some hd
       /\ (drv_releaseInterface drv (trace w) hd (WebUsbHandle.interface h)
             = Raise e
           \/ drv_close drv
                (trace w ++ [EvReleaseInterface hd (WebUsbHandle.interface h)])
                hd = Raise e))
  /\
  (forall hd e,
     WebUsbHandle.handle h = Some hd ->
     drv_releaseInterface drv (trace w) hd (WebUsbHandle.interface h)
       = Raise e ->
     fst (close drv self w) = Raise e
     /\ trace (snd (close drv self w))
        = trace w ++ [EvReleaseInterface hd (WebUsbHandle.interface h)])
  /\
  (forall hd e,
     WebUsbHandle.handle h = Some hd ->
     drv_releaseInterface drv (trace w) hd (WebUsbHandle.interface h)
       = Ok tt ->
     drv_close drv
       (trace w ++ [EvReleaseInterface hd (WebUsbHandle.interface h)]) hd
       = Raise e ->
     fst (close drv self w) = Raise e
     /\ trace (snd (close drv self w))
        = trace w ++ [EvReleaseInterface hd (WebUsbHandle.interface h);
                      EvClose hd]).
Proof.
  intros Hself.
  assert (Hlt : (self < length (handles w))%nat)
    by (now apply lookup_lt_Some in Hself).
  split; [|split; [|split; [|split]]].
  - now apply close_closed.
  - intros hd Hopen itf Hrel Hclose w'. subst w'.
    rewrite (close_open_unfold drv _ _ _ _ Hself Hopen). cbv zeta.
    fold itf. rewrite Hrel, Hclose. simpl fst. simpl snd.
    assert (Hself' : handles (closed_world self h hd w) !! self
                     = Some (with_handle None h))
      by (simpl; now apply list_lookup_insert_eq).
    assert (Hagain : close drv self (closed_world self h hd w)
                     = (Ok tt, closed_world self h hd w))
      by (now apply (close_closed drv _ _ _ Hself')).
    split; [reflexivity|]. split; [simpl; now rewrite <- app_assoc|].
    split; [exact Hself'|]. split; [reflexivity|]. split; [exact Hagain|].
    unfold bind at 1.
    rewrite (close_open_unfold drv _ _ _ _ Hself Hopen). cbv zeta.
    fold itf. rewrite Hrel, Hclose. exact Hagain.
  - intros e. destruct (WebUsbHandle.handle h) as [hd|] eqn:Hopen.
    + rewrite (close_open_unfold drv _ _ _ _ Hself Hopen). cbv zeta.
      intros E. exists hd. split; [reflexivity|].
      destruct (drv_releaseInterface drv (trace w) hd
                  (WebUsbHandle.interface h)) as [[]|e1]; simpl in E.
      * right. destruct (drv_close drv _ hd) as [[]|e2]; simpl in E;
          [discriminate | congruence].
      * left. congruence.
    + rewrite (close_closed drv _ _ _ Hself Hopen). discriminate.
  - intros hd e Hopen Hrel.
    rewrite (close_open_unfold drv _ _ _ _ Hself Hopen). cbv zeta.
    rewrite Hrel. split; reflexivity.
  - intros hd e Hopen Hrel Hclose.
    rewrite (close_open_unfold drv _ _ _ _ Hself Hopen). cbv zeta.
    rewrite Hrel, Hclose. split; [reflexivity|].
    simpl. now rewrite <- app_assoc.
Qed.

End close_facts.

(** ** read_chunk *)

Section read_chunk_facts.

Variable drv : Driver.

Lemma after_empty_reads_0 hd ep w : after_empty_reads hd ep 0 w = w.
Proof.
  unfold after_empty_reads. simpl. rewrite app_nil_r, Nat.add_0_r.
  now destruct w.
Qed.

Lemma after_empty_reads_S hd ep n w :
  after_empty_reads hd ep n
    (snd (sleep_1ms (log (EvInterruptRead hd ep 64) w)))
  = after_empty_reads hd ep (S n) w.
Proof.
  unfold after_empty_reads. simpl.
  rewrite <- app_assoc. simpl. f_equal. lia.
Qed.

Lemma after_empty_reads_next hd ep n w :
  snd (sleep_1ms (log (EvInterruptRead hd ep 64) (after_empty_reads hd ep n w)))
  = after_empty_reads hd ep (S n) w.
Proof.
  unfold after_empty_reads. simpl. rewrite <- app_assoc.
  change [EvInterruptRead hd ep 64]
    with (repeat (EvInterruptRead hd ep 64) 1).
  rewrite <- repeat_app.
  replace (n + 1)%nat with (S n) by lia.
  replace (S (slept_ms w + n)) with (slept_ms w + S n)%nat by lia.
  reflexivity.
Qed.

Lemma read_loop_S fuel hd ep w :
  read_loop drv (S fuel) hd ep w =
    match drv_interruptRead drv (trace w) hd ep 64 with
    | Raise e => Some (Raise e, log (EvInterruptRead hd ep 64) w)
    | Ok chunk =>
        if truthy chunk then
          Some (Ok chunk, log (EvInterruptRead hd ep 64) w)
        else
          read_loop drv fuel hd ep
            (snd (sleep_1ms (log (EvInterruptRead hd ep 64) w)))
    end.
Proof.
  simpl. unfold interruptRead.
  now destruct (drv_interruptRead drv (trace w) hd ep 64).
Qed.

(** While the reads find nothing, the loop goes round: [n] empty reads use
    up [n] iterations, [n] reads and [n] sleeps. *)
Lemma read_loop_skip hd ep n :
  forall w fuel,
    (forall k, (k < n)%nat -> nth_read drv hd ep k w = Ok []) ->
    read_loop drv (n + fuel) hd ep w =
      read_loop drv fuel hd ep (after_empty_reads hd ep n w).
Proof.
  induction n as [|n IH]; intros w fuel Hempty.
  - now rewrite after_empty_reads_0.
  - change (S n + fuel)%nat with (S (n + fuel)). rewrite read_loop_S.
    pose proof (Hempty 0%nat ltac:(lia)) as H0.
    unfold nth_read in H0. simpl in H0. rewrite app_nil_r in H0.
    rewrite H0. cbv beta iota delta [truthy].
    rewrite IH.
    + now rewrite after_empty_reads_S.
    + intros k Hk. pose proof (Hempty (S k) ltac:(lia)) as Hk'.
      unfold nth_read in *. simpl in *. now rewrite <- app_assoc.
Qed.

Lemma read_loop_starves hd ep w :
  (forall k, nth_read drv hd ep k w = Ok []) ->
  forall fuel, read_loop drv fuel hd ep w = None.
Proof.
  intros Hempty fuel.
  rewrite <- (Nat.add_0_r fuel).
  rewrite read_loop_skip; [reflexivity | auto].
Qed.

Lemma read_loop_early hd ep n w fuel :
  (forall k, (k < n)%nat -> nth_read drv hd ep k w = Ok []) ->
  (fuel <= n)%nat ->
  read_loop drv fuel hd ep w = None.
Proof.
  intros Hempty Hle.
  rewrite <- (Nat.add_0_r fuel).
  rewrite read_loop_skip; [reflexivity|].
  intros k Hk. apply Hempty. lia.
Qed.

Lemma read_loop_answer hd ep n w fuel :
  (forall k, (k < n)%nat -> nth_read drv hd ep k w = Ok []) ->
  (n < fuel)%nat ->
  read_loop drv fuel hd ep w =
    match nth_read drv hd ep n w with
    | Raise e =>
        Some (Raise e,
              log (EvInterruptRead hd ep 64) (after_empty_reads hd ep n w))
    | Ok chunk =>
        if truthy chunk then
          Some (Ok chunk,
                log (EvInterruptRead hd ep 64) (after_empty_reads hd ep n w))
        else
          read_loop drv (fuel - S n) hd ep (after_empty_reads hd ep (S n) w)
    end.
Proof.
  intros Hempty Hlt.
  replace fuel with (n + S (fuel - S n))%nat at 1 by lia.
  rewrite (read_loop_skip _ _ _ _ _ Hempty), read_loop_S.
  unfold nth_read. simpl trace.
  destruct (drv_interruptRead drv _ hd ep 64) as [chunk|e]; [|reflexivity].
  destruct (truthy chunk); [reflexivity|].
  now rewrite after_empty_reads_next.
Qed.

Lemma read_chunk_open fuel self w h hd :
  handles w !! self = Some h ->
  WebUsbHandle.handle h = Some hd ->
  read_chunk drv fuel self w =
    match read_loop drv fuel hd (endpoint_in h) w with
    | None => None
    | Some (Raise e, w1) => Some (Raise e, w1)
    | Some (Ok chunk, w1) =>
        if negb (Nat.eqb (length chunk) 64) then
          Some (Raise (TransportException (chunk_size_message (length chunk))),
                w1)
        else Some (Ok chunk, w1)
    end.
Proof.
  intros Hself Hopen. unfold read_chunk.
  rewrite (load_handle_ok _ _ _ Hself), Hopen. reflexivity.
Qed.

Lemma truthy_nonempty (chunk : list byte) : chunk <> [] -> truthy chunk = true.
Proof. destruct chunk; [congruence | reflexivity]. Qed.

(** C3: on an Open handle, when the reads of the input endpoint find nothing
    [N] times and then a non-empty buffer, [read_chunk] is still in its loop
    after [N] iterations and finishes at the next one, after [N + 1] reads
    and [N] sleeps: it returns the buffer when it has 64 bytes, and
    otherwise raises the chunk-size error whose message carries the length
    of the buffer. *)
Theorem read_chunk_retries_until_nonempty self w h hd (N : nat)
  (buf : list byte) :
  handles w !! self = Some h ->
  WebUsbHandle.handle h = Some hd ->
  let ep := Z.lor 0x80 (WebUsbHandle.endpoint h) in
  (forall k, (k < N)%nat -> nth_read drv hd ep k w = Ok []) ->
  nth_read drv hd ep N w = Ok buf ->
  buf <> [] ->
  let w' := log (EvInterruptRead hd ep 64) (after_empty_reads hd ep N w) in
  (forall fuel, (fuel <= N)%nat -> read_chunk drv fuel self w = None)
  /\ (length buf = 64%nat ->
      forall fuel, (N < fuel)%nat ->
        read_chunk drv fuel self w = Some (Ok buf, w'))
  /\ (length buf <> 64%nat ->
      forall fuel, (N < fuel)%nat ->
        read_chunk drv fuel self w =
          Some (Raise (TransportException
                         ("Unexpected chunk size: "
                          ++ str_of_nat (length buf))%string), w'))
  /\ trace w' = trace w ++ repeat (EvInterruptRead hd ep 64) (S N)
  /\ slept_ms w' = (slept_ms w + N)%nat.
Proof.
  intros Hself Hopen ep Hempty Hread Hne w'.
  assert (Hloop : forall fuel, (N < fuel)%nat ->
            read_loop drv fuel hd ep w = Some (Ok buf, w')).
  { intros fuel Hlt.
    rewrite (read_loop_answer _ _ _ _ _ Hempty Hlt), Hread.
    now rewrite (truthy_nonempty _ Hne). }
  split; [|split; [|split; [|split]]].
  - intros fuel Hle. rewrite (read_chunk_open _ _ _ _ _ Hself Hopen).
    unfold endpoint_in. fold ep.
    now rewrite (read_loop_early _ _ _ _ _ Hempty Hle).
  - intros Hlen fuel Hlt. rewrite (read_chunk_open _ _ _ _ _ Hself Hopen).
    unfold endpoint_in. fold ep. rewrite (Hloop _ Hlt), Hlen. reflexivity.
  - intros Hlen fuel Hlt. rewrite (read_chunk_open _ _ _ _ _ Hself Hopen).
    unfold endpoint_in. fold ep. rewrite (Hloop _ Hlt).
    apply Nat.eqb_neq in Hlen. now rewrite Hlen.
  - subst w'. unfold log, after_empty_reads. cbn [trace].
    rewrite <- app_assoc. f_equal.
    replace (S N) with (N + 1)%nat by lia. now rewrite repeat_app.
  - reflexivity.
Qed.

(** C4: on an Open handle, if the driver answers a non-empty buffer after
    finitely many empty reads, [read_chunk] terminates: from some number of
    iterations on, it has one and the same outcome.  If every read finds
    nothing, [read_chunk] has no outcome however many iterations it is
    given: nothing in the loop bounds the wait. *)
Theorem read_chunk_terminates_iff_data self w h hd :
  handles w !! self = Some h ->
  WebUsbHandle.handle h = Some hd ->
  let ep := Z.lor 0x80 (WebUsbHandle.endpoint h) in
  ((exists N buf,
      (forall k, (k < N)%nat -> nth_read drv hd ep k w = Ok [])
      /\ nth_read drv hd ep N w = Ok buf /\ buf <> []) ->
   exists fuel0 r,
     forall fuel, (fuel0 <= fuel)%nat -> read_chunk drv fuel self w = Some r)
  /\
  ((forall k, nth_read drv hd ep k w = Ok []) ->
   forall fuel, read_chunk drv fuel self w = None).
Proof.
  intros Hself Hopen ep. split.
  - intros (N & buf & Hempty & Hread & Hne).
    exists (S N).
    exists (let w1 := log (EvInterruptRead hd ep 64)
                        (after_empty_reads hd ep N w) in
            if negb (Nat.eqb (length buf) 64) then
              (Raise (TransportException (chunk_size_message (length buf))),
               w1)
            else (Ok buf, w1)).
    intros fuel Hfuel.
    rewrite (read_chunk_open _ _ _ _ _ Hself Hopen).
    unfold endpoint_in. fold ep.
    assert (Hlt : (N < fuel)%nat) by lia.
    rewrite (read_loop_answer _ _ _ _ _ Hempty Hlt), Hread.
    rewrite (truthy_nonempty _ Hne). cbv zeta.
    now destruct (negb (Nat.eqb (length buf) 64)).
  - intros Hempty fuel.
    rewrite (read_chunk_open _ _ _ _ _ Hself Hopen).
    unfold endpoint_in. fold ep.
    now rewrite (read_loop_starves _ _ _ Hempty).
Qed.

End read_chunk_facts.

(** ** The constructor of a transport *)

Section transport_facts.

Variable get_protocol : addr -> bool -> Protocol.

Lemma WebUsbTransport_init_fresh device debug w :
  WebUsbTransport_init get_protocol device None debug w =
    (Ok (length (transports w)), init_world get_protocol device debug w).
Proof. reflexivity. Qed.

Lemma WebUsbTransport_init_shared device handle debug w :
  WebUsbTransport_init get_protocol device (Some handle) debug w =
    (Ok (length (transports w)),
     set_transports
       (fun ts =>
          ts ++ [WebUsbTransport.mk device handle debug
                   (get_protocol handle (is_trezor2 device))])
       w).
Proof. reflexivity. Qed.

Lemma scanned_world_nil w : scanned_world get_protocol [] w = w.
Proof.
  unfold scanned_world, set_transports, set_handles. simpl.
  rewrite !app_nil_r. now destruct w.
Qed.

Lemma scanned_world_cons d ds w :
  scanned_world get_protocol (d :: ds) w =
    scanned_world get_protocol ds (init_world get_protocol d false w).
Proof.
  unfold scanned_world, init_world, set_transports, set_handles. simpl.
  rewrite length_app. simpl length. rewrite Nat.add_1_r.
  rewrite <- !app_assoc. reflexivity.
Qed.

(** ** enumerate *)

(** One turn of the [for] loop. *)
Lemma enumerate_loop_cons dev rest devices w :
  enumerate_loop get_protocol (dev :: rest) devices w =
    if negb (supported dev) then
      enumerate_loop get_protocol rest devices w
    else
      match is_vendor_class dev with
      | Raise e => (Raise e, w)
      | Ok false => enumerate_loop get_protocol rest devices w
      | Ok true =>
          match getProduct dev with
          | Raise e =>
              if is_USBErrorNotSupported e then
                enumerate_loop get_protocol rest devices w
              else (Raise e, w)
          | Ok _ =>
              enumerate_loop get_protocol rest
                (devices ++ [length (transports w)])
                (init_world get_protocol dev false w)
          end
      end.
Proof.
  unfold supported. simpl.
  destruct (negb (is_trezor1 dev || is_trezor2 dev || is_trezor2_bl dev));
    [reflexivity|].
  unfold bind at 1. unfold lift at 1.
  destruct (is_vendor_class dev) as [[|]|e]; try reflexivity.
  simpl negb. cbv iota.
  unfold bind at 1. unfold try_except, bind, lift.
  destruct (getProduct dev) as [s|e]; [reflexivity|].
  now destruct (is_USBErrorNotSupported e).
Qed.

Lemma enumerate_loop_app pre post :
  forall devices w,
    enumerate_loop get_protocol (pre ++ post) devices w =
      match enumerate_loop get_protocol pre devices w with
      | (Ok devices', w') => enumerate_loop get_protocol post devices' w'
      | (Raise e, w') => (Raise e, w')
      end.
Proof.
  induction pre as [|dev pre IH]; intros devices w; [reflexivity|].
  rewrite <- app_comm_cons, !enumerate_loop_cons.
  destruct (negb (supported dev)); [apply IH|].
  destruct (is_vendor_class dev) as [[|]|e]; [|apply IH|reflexivity].
  destruct (getProduct dev) as [s|e]; [apply IH|].
  destruct (is_USBErrorNotSupported e); [apply IH|reflexivity].
Qed.

Lemma enumerate_loop_quiet devs :
  forall devices w,
    forallb scan_quiet devs = true ->
    enumerate_loop get_protocol devs devices w =
      (Ok (devices
           ++ seq (length (transports w))
                (length (List.filter accepted devs))),
       scanned_world get_protocol (List.filter accepted devs) w).
Proof.
  induction devs as [|dev devs IH]; intros devices w Hquiet.
  - simpl. now rewrite app_nil_r, scanned_world_nil.
  - simpl in Hquiet. apply andb_prop in Hquiet as [Hdev Hrest].
    rewrite enumerate_loop_cons.
    change (List.filter accepted (dev :: devs))
      with (if accepted dev then dev :: List.filter accepted devs
            else List.filter accepted devs).
    pose proof (eq_refl (accepted dev)) as Hacc.
    unfold accepted at 2 in Hacc. unfold scan_quiet in Hdev.
    destruct (supported dev); cbn [negb andb orb] in *;
      [|rewrite Hacc; now apply IH].
    destruct (is_vendor_class dev) as [[|]|e];
      [| rewrite Hacc; now apply IH | discriminate].
    destruct (getProduct dev) as [s|e]; rewrite Hacc;
      cbv beta iota delta [andb].
    + rewrite (IH _ _ Hrest), scanned_world_cons.
      f_equal. rewrite <- app_assoc. do 2 f_equal.
      cbn [length seq app]. do 2 f_equal.
      unfold init_world. cbn [transports set_transports set_handles].
      rewrite length_app. cbn [length]. lia.
    + rewrite Hdev. now apply IH.
Qed.

Lemma enumerate_unfold w :
  enumerate get_protocol w =
    enumerate_loop get_protocol (attached w) []
      (snd (ensure_context w)).
Proof.
  unfold enumerate, bind, getDeviceIterator, ensure_context.
  now destruct (context w).
Qed.

End transport_facts.

Section enumerate_facts.

Variable get_protocol : addr -> bool -> Protocol.

Lemma new_transports_devices ds :
  forall nh,
    map WebUsbTransport.device (new_transports get_protocol ds nh) = ds.
Proof.
  induction ds as [|d ds IH]; intros nh; simpl; [reflexivity|].
  now rewrite IH.
Qed.

Lemma accepted_spec dev :
  accepted dev = true <->
  supported dev = true /\ is_vendor_class dev = Ok true
  /\ exists s, getProduct dev = Ok s.
Proof.
  unfold accepted. split.
  - intros H. apply andb_prop in H as [H Hp]. apply andb_prop in H as [Hs Hv].
    split; [assumption|]. split.
    + destruct (is_vendor_class dev) as [[|]|e];
        [reflexivity | discriminate | discriminate].
    + destruct (getProduct dev) as [s|e]; [now exists s | discriminate].
  - intros (Hs & Hv & s & Hp). now rewrite Hs, Hv, Hp.
Qed.

(** C7: when the scan raises on no descriptor, [enumerate] returns one new
    transport for each descriptor that passes all the filters, in the order
    of the bus, each over its descriptor and over a chunk handle of its own
    on the normal interface.  A descriptor is among them exactly when it is
    on the bus, its identity is one of the supported pairs, its class at
    configuration 0, interface 0, alternate setting 0 is vendor-specific and
    the product-string query returns.  A descriptor with an unsupported
    identity, or with a supported identity and another class, is skipped: the
    loop goes on with the next one, in the same state. *)
Theorem enumerate_one_transport_per_accepted w :
  forallb scan_quiet (attached w) = true ->
  let found := List.filter accepted (attached w) in
  let w' := snd (enumerate get_protocol w) in
  fst (enumerate get_protocol w)
    = Ok (seq (length (transports w)) (length found))
  /\ transports w'
     = transports w ++ new_transports get_protocol found (length (handles w))
  /\ map WebUsbTransport.device
       (new_transports get_protocol found (length (handles w))) = found
  /\ handles w'
     = handles w ++ map (fun d => WebUsbHandle_init d false) found
  /\ (forall dev,
        In dev found <->
        In dev (attached w) /\ supported dev = true
        /\ is_vendor_class dev = Ok true /\ exists s, getProduct dev = Ok s)
  /\ (forall dev rest devices w0,
        supported dev = false ->
        enumerate_loop get_protocol (dev :: rest) devices w0
          = enumerate_loop get_protocol rest devices w0)
  /\ (forall dev rest devices w0,
        supported dev = true ->
        is_vendor_class dev = Ok false ->
        enumerate_loop get_protocol (dev :: rest) devices w0
          = enumerate_loop get_protocol rest devices w0).
Proof.
  intros Hquiet found w'. subst w'.
  rewrite enumerate_unfold.
  rewrite (enumerate_loop_quiet get_protocol _ [] _ Hquiet).
  assert (Hctx : forall v : World,
            transports (snd (ensure_context v)) = transports v
            /\ handles (snd (ensure_context v)) = handles v).
  { intros v. unfold ensure_context. now destruct (context v). }
  destruct (Hctx w) as [Ht Hh].
  fold found. simpl fst. simpl snd.
  split; [now rewrite Ht|].
  split; [unfold scanned_world; simpl; now rewrite Ht, Hh|].
  split; [apply new_transports_devices|].
  split; [unfold scanned_world; simpl; now rewrite Hh|].
  split; [intros dev; unfold found; rewrite filter_In, accepted_spec; tauto|].
  split.
  - intros dev rest devices w0 Hs. now rewrite enumerate_loop_cons, Hs.
  - intros dev rest devices w0 Hs Hv. now rewrite enumerate_loop_cons, Hs, Hv.
Qed.

(** C6: a candidate that passed the identity and class filters and whose
    product-string query raises the not-supported error is dropped without a
    trace: the scan goes on with the next descriptor, in the same state and
    with the same result so far, so [enumerate] behaves as if the candidate
    were not on the bus, and returns when no other descriptor raises.  When
    the query raises any other error, the loop stops there with that error:
    [enumerate] does not return, and the error it raises is that one unless
    an earlier descriptor raised first. *)
Theorem enumerate_probe_failure dev pre post w :
  supported dev = true ->
  is_vendor_class dev = Ok true ->
  attached w = pre ++ dev :: post ->
  (getProduct dev = Raise (USBError ErrNotSupported) ->
   (forall rest devices w0,
      enumerate_loop get_protocol (dev :: rest) devices w0
        = enumerate_loop get_protocol rest devices w0)
   /\ enumerate get_protocol w
      = enumerate_loop get_protocol (pre ++ post) []
          (snd (ensure_context w))
   /\ (forallb scan_quiet (pre ++ post) = true ->
       exists addrs, fst (enumerate get_protocol w) = Ok addrs))
  /\
  (forall e,
     getProduct dev = Raise e ->
     is_USBErrorNotSupported e = false ->
     (forall rest devices w0,
        enumerate_loop get_protocol (dev :: rest) devices w0 = (Raise e, w0))
     /\ (forall addrs, fst (enumerate get_protocol w) <> Ok addrs)
     /\ (forallb scan_quiet pre = true ->
         fst (enumerate get_protocol w) = Raise e)).
Proof.
  intros Hs Hv Hbus.
  assert (Hstep : forall e rest devices w0,
            getProduct dev = Raise e ->
            enumerate_loop get_protocol (dev :: rest) devices w0 =
              if is_USBErrorNotSupported e
              then enumerate_loop get_protocol rest devices w0
              else (Raise e, w0)).
  { intros e rest devices w0 Hp.
    now rewrite enumerate_loop_cons, Hs, Hv, Hp. }
  split.
  - intros Hp.
    assert (Hdrop : enumerate get_protocol w
                    = enumerate_loop get_protocol (pre ++ post) []
                        (snd (ensure_context w))).
    { rewrite enumerate_unfold, Hbus, !enumerate_loop_app.
      destruct (enumerate_loop get_protocol pre [] (snd (ensure_context w)))
        as [[devices|e] w1]; [|reflexivity].
      now rewrite (Hstep _ _ _ _ Hp). }
    split; [intros rest devices w0; now rewrite (Hstep _ _ _ _ Hp)|].
    split; [exact Hdrop|].
    intros Hquiet. rewrite Hdrop.
    rewrite (enumerate_loop_quiet get_protocol _ [] _ Hquiet).
    eexists. reflexivity.
  - intros e Hp Hne.
    split; [intros rest devices w0; now rewrite (Hstep _ _ _ _ Hp), Hne|].
    split.
    + intros addrs. rewrite enumerate_unfold, Hbus, enumerate_loop_app.
      destruct (enumerate_loop get_protocol pre [] (snd (ensure_context w)))
        as [[devices|e0] w1]; [|discriminate].
      rewrite (Hstep _ _ _ _ Hp), Hne. discriminate.
    + intros Hquiet.
      rewrite enumerate_unfold, Hbus, enumerate_loop_app.
      rewrite (enumerate_loop_quiet get_protocol _ [] _ Hquiet).
      now rewrite (Hstep _ _ _ _ Hp), Hne.
Qed.

End enumerate_facts.

(** ** The path of a transport *)

Lemma string_of_uint_length d :
  String.length (NilEmpty.string_of_uint d) = Decimal.nb_digits d.
Proof. induction d; simpl; congruence. Qed.

Lemma two_digits_bound d :
  (Decimal.nb_digits d <= 2)%nat -> (Nat.of_uint d <= 99)%nat.
Proof.
  intros H.
  destruct d as [|d|d|d|d|d|d|d|d|d|d]; [vm_compute; lia|..];
    (destruct d as [|d|d|d|d|d|d|d|d|d|d]; [vm_compute; lia|..];
     (destruct d; [vm_compute; lia|simpl in H; lia..])).
Qed.

Lemma str_of_nat_length_small :
  forallb
    (fun n => Nat.eqb (String.length (str_of_nat n))
                (if (n <? 10)%nat then 1 else 2))
    (seq 0 100) = true.
Proof. vm_compute. reflexivity. Qed.

Lemma str_of_nat_length n :
  ((n < 10)%nat -> String.length (str_of_nat n) = 1%nat)
  /\ ((10 <= n < 100)%nat -> String.length (str_of_nat n) = 2%nat)
  /\ ((100 <= n)%nat -> (3 <= String.length (str_of_nat n))%nat).
Proof.
  assert (Hsmall : (n < 100)%nat ->
            String.length (str_of_nat n)
            = if (n <? 10)%nat then 1%nat else 2%nat).
  { intros Hn. pose proof str_of_nat_length_small as Hall.
    rewrite forallb_forall in Hall.
    apply Nat.eqb_eq, Hall, in_seq. lia. }
  split; [|split].
  - intros Hn. rewrite Hsmall by lia.
    apply Nat.ltb_lt in Hn. now rewrite Hn.
  - intros [Hlo Hhi]. rewrite Hsmall by lia.
    apply Nat.ltb_ge in Hlo. now rewrite Hlo.
  - intros Hn. unfold str_of_nat. rewrite string_of_uint_length.
    destruct (Nat.le_gt_cases 3 (Decimal.nb_digits (Nat.to_uint n)))
      as [Hge|Hlt]; [assumption|].
    assert (Hb : (Nat.of_uint (Nat.to_uint n) <= 99)%nat)
      by (apply two_digits_bound; lia).
    rewrite Unsigned.of_to in Hb. lia.
Qed.

(** ['%03i'] and the padding of the specification agree. *)
Lemma fmt_03i_three_digits n : fmt_03i n = three_digits n.
Proof.
  unfold fmt_03i, zero_pad, three_digits.
  destruct (str_of_nat_length n) as (H1 & H2 & H3).
  destruct (Nat.ltb_spec n 10) as [Hlt|Hge].
  - now rewrite (H1 Hlt).
  - destruct (Nat.ltb_spec n 100) as [Hlt|Hge'].
    + now rewrite (H2 (conj Hge Hlt)).
    + specialize (H3 Hge').
      replace (3 - String.length (str_of_nat n))%nat with 0%nat by lia.
      reflexivity.
Qed.

Lemma three_digits_length n : (3 <= String.length (three_digits n))%nat.
Proof.
  unfold three_digits.
  destruct (str_of_nat_length n) as (H1 & H2 & H3).
  destruct (Nat.ltb_spec n 10) as [Hlt|Hge].
  - change (String.length ("00" ++ str_of_nat n))
      with (S (S (String.length (str_of_nat n)))).
    rewrite (H1 Hlt). lia.
  - destruct (Nat.ltb_spec n 100) as [Hlt|Hge'].
    + change (String.length ("0" ++ str_of_nat n))
        with (S (String.length (str_of_nat n))).
      rewrite (H2 (conj Hge Hlt)). lia.
    + auto.
Qed.

Lemma dev_to_str_path dev :
  (PATH_PREFIX ++ ":" ++ dev_to_str dev)%string
  = path_of (getBusNumber dev) (getPortNumberList dev).
Proof.
  unfold dev_to_str, path_of, join, PATH_PREFIX.
  rewrite map_app, map_map. simpl map. rewrite fmt_03i_three_digits.
  reflexivity.
Qed.

(** C8: the path of a transport is the prefix "webusb", the bus number of
    its descriptor in decimal with zeros in front up to three digits, and
    the port numbers in decimal in the order of the descriptor, joined by
    colons; calling [get_path] changes nothing, and two transports whose
    descriptors have the same bus number and ports have the same path.  Bus
    7 with ports 2 and 1 reads "webusb:007:2:1". *)
Theorem get_path_format self w t :
  transports w !! self = Some t ->
  let dev := WebUsbTransport.device t in
  get_path self w
    = (Ok (path_of (getBusNumber dev) (getPortNumberList dev)), w)
  /\ path_of (getBusNumber dev) (getPortNumberList dev)
     = join ":" ("webusb" :: three_digits (getBusNumber dev)
                 :: map str_of_nat (getPortNumberList dev))
  /\ (3 <= String.length (three_digits (getBusNumber dev)))%nat
  /\ path_of 7 [2; 1]%nat = "webusb:007:2:1"
  /\ (forall self' w' t',
        transports w' !! self' = Some t' ->
        getBusNumber (WebUsbTransport.device t') = getBusNumber dev ->
        getPortNumberList (WebUsbTransport.device t')
          = getPortNumberList dev ->
        fst (get_path self' w')
          = fst (get_path self w)).
Proof.
  intros Hself dev.
  assert (Hpath : forall a v u,
            transports v !! a = Some u ->
            get_path a v
              = (Ok (path_of (getBusNumber (WebUsbTransport.device u))
                       (getPortNumberList (WebUsbTransport.device u))), v)).
  { intros a v u Hu. unfold get_path.
    rewrite (bind_ok _ _ _ _ _ (load_transport_ok _ _ _ Hu)).
    unfold ret. now rewrite dev_to_str_path. }
  split; [now apply Hpath|].
  split; [reflexivity|].
  split; [apply three_digits_length|].
  split; [reflexivity|].
  intros self' w' t' Hself' Hbus Hports.
  rewrite (Hpath _ _ _ Hself'), (Hpath _ _ _ Hself). simpl.
  fold dev. now rewrite Hbus, Hports.
Qed.

(** ** find_debug *)

Section find_debug_facts.

Variable get_protocol : addr -> bool -> Protocol.

Lemma find_debug_unfold self w t :
  transports w !! self = Some t ->
  find_debug get_protocol self w =
    (Ok (length (transports w)),
     if Z.geb (VERSION (WebUsbTransport.protocol t)) 2 then
       share_world get_protocol (WebUsbTransport.device t)
         (WebUsbTransport.handle t) w
     else
       init_world get_protocol (WebUsbTransport.device t) true w).
Proof.
  intros Hself. unfold find_debug.
  rewrite (bind_ok _ _ _ _ _ (load_transport_ok _ _ _ Hself)).
  now destruct (Z.geb (VERSION (WebUsbTransport.protocol t)) 2).
Qed.

(** C9: [find_debug] returns a transport at a new address and leaves every
    transport and every chunk handle of the store as it was, the receiver
    and its handle among them.  When the protocol version of the receiver is
    1, the new transport is over the same device and over a chunk handle at
    a new address, different from the receiver's, Closed, on the debug
    interface and endpoint.  When the version is 2 or more, no handle is
    created and the new transport refers to the very handle of the
    receiver. *)
Theorem find_debug_by_version self w t :
  transports w !! self = Some t ->
  (WebUsbTransport.handle t < length (handles w))%nat ->
  let dev := WebUsbTransport.device t in
  let new := length (transports w) in
  let w' := snd (find_debug get_protocol self w) in
  fst (find_debug get_protocol self w) = Ok new
  /\ new <> self
  /\ (forall a u, transports w !! a = Some u -> transports w' !! a = Some u)
  /\ (forall a h, handles w !! a = Some h -> handles w' !! a = Some h)
  /\ (VERSION (WebUsbTransport.protocol t) = 1 ->
      let fresh := length (handles w) in
      transports w' !! new
        = Some (WebUsbTransport.mk dev fresh true
                  (get_protocol fresh (is_trezor2 dev)))
      /\ fresh <> WebUsbTransport.handle t
      /\ handles w !! fresh = None
      /\ handles w' !! fresh
         = Some (WebUsbHandle.mk dev DEBUG_INTERFACE DEBUG_ENDPOINT 0 None))
  /\ (2 <= VERSION (WebUsbTransport.protocol t) ->
      transports w' !! new
        = Some (WebUsbTransport.mk dev (WebUsbTransport.handle t) false
                  (get_protocol (WebUsbTransport.handle t) (is_trezor2 dev)))
      /\ handles w' = handles w).
Proof.
  intros Hself Hwf dev new w'. subst w'.
  rewrite (find_debug_unfold _ _ _ Hself). simpl fst. simpl snd.
  assert (Hlt : (self < length (transports w))%nat)
    by (now apply lookup_lt_Some in Hself).
  split; [reflexivity|]. split; [subst new; lia|].
  split; [|split; [|split]].
  - intros a u Ha.
    destruct (Z.geb (VERSION (WebUsbTransport.protocol t)) 2); simpl;
      now apply lookup_app_l_Some.
  - intros a h Ha.
    destruct (Z.geb (VERSION (WebUsbTransport.protocol t)) 2); simpl;
      [assumption | now apply lookup_app_l_Some].
  - intros Hv fresh. rewrite Hv. simpl.
    split; [subst new; now rewrite list_lookup_middle|].
    split; [subst fresh; lia|].
    split; [now apply lookup_ge_None|].
    subst fresh. now rewrite list_lookup_middle.
  - intros Hv.
    assert (Hge : Z.geb (VERSION (WebUsbTransport.protocol t)) 2 = true)
      by (apply Z.geb_le; lia).
    rewrite Hge. simpl.
    split; [subst new; now rewrite list_lookup_middle | reflexivity].
Qed.

End find_debug_facts.

(** * The theorems at concrete inputs *)

Lemma write_chunk_checks_size_witness :
  fst (write_chunk steady_driver 0%nat chunk65 (handle_world (Some 1%nat)))
    = Raise (TransportException "Unexpected chunk size: 65")
  /\ fst (write_chunk steady_driver 0%nat chunk64 (handle_world (Some 1%nat)))
     = Ok tt
  /\ trace (snd (write_chunk steady_driver 0%nat chunk64
                   (handle_world (Some 1%nat))))
     = [EvInterruptWrite 1%nat ENDPOINT chunk64].
Proof.
  destruct (write_chunk_checks_size steady_driver 0%nat chunk65
              (handle_world (Some 1%nat)) _ 1%nat eq_refl eq_refl)
    as [Hbad _].
  destruct (write_chunk_checks_size steady_driver 0%nat chunk64
              (handle_world (Some 1%nat)) _ 1%nat eq_refl eq_refl)
    as [_ Hgood].
  assert (H65 : length chunk65 <> 64%nat) by (vm_compute; discriminate).
  destruct (Hbad H65) as [Hmsg _].
  destruct (Hgood eq_refl) as (Htrace & Hok & _).
  split; [exact Hmsg|]. split; [exact (Hok _ eq_refl) | exact Htrace].
Defined.

Lemma write_chunk_rejects_before_bus_witness :
  snd (write_chunk steady_driver 0%nat chunk65 (handle_world (Some 1%nat)))
    = handle_world (Some 1%nat)
  /\ fst (write_chunk steady_driver 0%nat chunk65 (handle_world (Some 1%nat)))
     = Raise (TransportException "Unexpected chunk size: 65").
Proof.
  assert (H65 : length chunk65 <> 64%nat) by (vm_compute; discriminate).
  destruct (write_chunk_rejects_before_bus steady_driver 0%nat chunk65
              (handle_world (Some 1%nat)) H65) as (Hworld & _ & Hraise).
  split; [exact Hworld | exact (Hraise _ 1%nat eq_refl eq_refl)].
Defined.

(** C2 does not hold as worded: the device opens, the claim of the
    interface is refused, and the handle that was Closed before the call is
    left holding the connection. *)
Lemma open_claim_refused_counterexample :
  is_closed (WebUsbHandle_init trezor1_dev false) = true
  /\ handles (handle_world None) !! 0%nat
     = Some (WebUsbHandle_init trezor1_dev false)
  /\ fst (open busy_driver "linux" 0%nat (handle_world None))
     = Raise (USBError ErrBusy)
  /\ handles (snd (open busy_driver "linux" 0%nat (handle_world None)))
       !! 0%nat
     = Some (WebUsbHandle.mk trezor1_dev INTERFACE ENDPOINT 0 (Some 1%nat))
  /\ is_closed (WebUsbHandle.mk trezor1_dev INTERFACE ENDPOINT 0 (Some 1%nat))
     = false
  /\ ~ (forall drv sys_platform self w h e,
         handles w !! self = Some h ->
         is_closed h = true ->
         fst (open drv sys_platform self w) = Raise e ->
         exists h',
           handles (snd (open drv sys_platform self w)) !! self = Some h'
           /\ is_closed h' = true).
Proof.
  repeat split.
  intros Hclaim.
  destruct (Hclaim busy_driver "linux" 0%nat (handle_world None) _
              (USBError ErrBusy) eq_refl eq_refl eq_refl)
    as (h' & Hh' & Hclosed).
  vm_compute in Hh'. injection Hh' as <-. discriminate.
Qed.

Lemma open_closed_unless_device_opened_witness :
  fst (open denied_driver "linux" 0%nat (handle_world None))
    = Raise (IOError ["Cannot open device"; udev_hint])
  /\ fst (open denied_driver "win32" 0%nat (handle_world None))
     = Raise (IOError ["Cannot open device"])
  /\ handles (snd (open denied_driver "linux" 0%nat (handle_world None)))
       !! 0%nat
     = Some (WebUsbHandle_init trezor1_dev false)
  /\ fst (open steady_driver "linux" 0%nat (handle_world None)) = Ok tt
  /\ handles (snd (open steady_driver "linux" 0%nat (handle_world None)))
       !! 0%nat
     = Some (WebUsbHandle.mk trezor1_dev INTERFACE ENDPOINT 0 (Some 1%nat)).
Proof.
  destruct (open_closed_unless_device_opened denied_driver "linux" 0%nat
              (handle_world None) _ eq_refl) as (Hlinux & _).
  destruct (open_closed_unless_device_opened denied_driver "win32" 0%nat
              (handle_world None) _ eq_refl) as (Hother & _).
  destruct (open_closed_unless_device_opened steady_driver "linux" 0%nat
              (handle_world None) _ eq_refl) as (_ & _ & Hopen & _).
  destruct (Hlinux eq_refl) as (E1 & E2 & _).
  destruct (Hother eq_refl) as (E3 & _).
  destruct (Hopen 1%nat eq_refl eq_refl) as (E4 & E5 & _).
  split; [exact E1|]. split; [exact E3|]. split; [exact E2|].
  split; [exact E4 | exact E5].
Defined.

Lemma read_chunk_retries_until_nonempty_witness :
  read_chunk late_driver 3 0%nat (handle_world (Some 1%nat)) = None
  /\ read_chunk late_driver 4 0%nat (handle_world (Some 1%nat))
     = Some (Ok chunk64,
             log (EvInterruptRead 1%nat 0x81 64)
               (after_empty_reads 1%nat 0x81 3 (handle_world (Some 1%nat)))).
Proof.
  assert (Hempty : forall k, (k < 3)%nat ->
            nth_read late_driver 1%nat 0x81 k (handle_world (Some 1%nat))
            = Ok []).
  { intros k Hk.
    destruct k as [|[|[|k]]]; [reflexivity | reflexivity | reflexivity | lia]. }
  assert (Hne : chunk64 <> []) by discriminate.
  destruct (read_chunk_retries_until_nonempty late_driver 0%nat
              (handle_world (Some 1%nat)) _ 1%nat 3 chunk64
              eq_refl eq_refl Hempty eq_refl Hne)
    as (Hearly & Hfull & _).
  split; [apply Hearly; lia | apply Hfull; [reflexivity | lia]].
Defined.

Lemma read_chunk_terminates_iff_data_witness :
  (exists fuel0 r,
     forall fuel, (fuel0 <= fuel)%nat ->
       read_chunk late_driver fuel 0%nat (handle_world (Some 1%nat)) = Some r)
  /\ (forall fuel,
        read_chunk steady_driver fuel 0%nat (handle_world (Some 1%nat))
        = None).
Proof.
  assert (Hempty : forall k, (k < 3)%nat ->
            nth_read late_driver 1%nat 0x81 k (handle_world (Some 1%nat))
            = Ok []).
  { intros k Hk.
    destruct k as [|[|[|k]]]; [reflexivity | reflexivity | reflexivity | lia]. }
  assert (Hne : chunk64 <> []) by discriminate.
  destruct (read_chunk_terminates_iff_data late_driver 0%nat
              (handle_world (Some 1%nat)) _ 1%nat eq_refl eq_refl)
    as (Hterm & _).
  destruct (read_chunk_terminates_iff_data steady_driver 0%nat
              (handle_world (Some 1%nat)) _ 1%nat eq_refl eq_refl)
    as (_ & Hloop).
  split.
  - apply Hterm. exists 3%nat, chunk64.
    split; [exact Hempty|]. split; [reflexivity | exact Hne].
  - apply Hloop. intros k. reflexivity.
Defined.

(** C5 does not hold as worded: the device is gone, the release of the
    interface raises, [close] raises with it and the handle stays Open. *)
Lemma close_release_raises_counterexample :
  fst (close unplugged_driver 0%nat (handle_world (Some 1%nat)))
    = Raise (USBError ErrNoDevice)
  /\ handles (snd (close unplugged_driver 0%nat (handle_world (Some 1%nat))))
       !! 0%nat
     = Some (WebUsbHandle.mk trezor1_dev INTERFACE ENDPOINT 0 (Some 1%nat))
  /\ is_closed (WebUsbHandle.mk trezor1_dev INTERFACE ENDPOINT 0 (Some 1%nat))
     = false
  /\ ~ (forall drv self w h,
         handles w !! self = Some h ->
         exists w', close drv self w = (Ok tt, w')).
Proof.
  repeat split.
  intros Hclaim.
  destruct (Hclaim unplugged_driver 0%nat (handle_world (Some 1%nat)) _
              eq_refl) as (w' & Hw').
  discriminate.
Qed.

Lemma close_idempotent_when_driver_returns_witness :
  close steady_driver 0%nat (handle_world None) = (Ok tt, handle_world None)
  /\ fst (close steady_driver 0%nat (handle_world (Some 1%nat))) = Ok tt
  /\ handles (snd (close steady_driver 0%nat (handle_world (Some 1%nat))))
       !! 0%nat
     = Some (WebUsbHandle_init trezor1_dev false)
  /\ trace (snd (close steady_driver 0%nat (handle_world (Some 1%nat))))
     = [EvReleaseInterface 1%nat INTERFACE; EvClose 1%nat]
  /\ (close steady_driver 0%nat ;;; close steady_driver 0%nat)
       (handle_world (Some 1%nat))
     = close steady_driver 0%nat (handle_world (Some 1%nat))
  /\ fst (close unplugged_driver 0%nat (handle_world (Some 1%nat)))
     = Raise (USBError ErrNoDevice)
  /\ fst (close jammed_driver 0%nat (handle_world (Some 1%nat)))
     = Raise (USBError ErrIO)
  /\ trace (snd (close jammed_driver 0%nat (handle_world (Some 1%nat))))
     = [EvReleaseInterface 1%nat INTERFACE; EvClose 1%nat].
Proof.
  destruct (close_idempotent_when_driver_returns steady_driver 0%nat
              (handle_world None) _ eq_refl) as (Hnoop & _).
  destruct (close_idempotent_when_driver_returns steady_driver 0%nat
              (handle_world (Some 1%nat)) _ eq_refl) as (_ & Hopen & _).
  destruct (close_idempotent_when_driver_returns unplugged_driver 0%nat
              (handle_world (Some 1%nat)) _ eq_refl)
    as (_ & _ & _ & Hrelease & _).
  destruct (close_idempotent_when_driver_returns jammed_driver 0%nat
              (handle_world (Some 1%nat)) _ eq_refl)
    as (_ & _ & _ & _ & Hclose).
  destruct (Hopen 1%nat eq_refl eq_refl eq_refl)
    as (E1 & E2 & E3 & _ & _ & E4).
  destruct (Hrelease 1%nat (USBError ErrNoDevice) eq_refl eq_refl)
    as (E5 & _).
  destruct (Hclose 1%nat (USBError ErrIO) eq_refl eq_refl eq_refl)
    as (E6 & E7).
  split; [exact (Hnoop eq_refl)|]. split; [exact E1|]. split; [exact E3|].
  split; [exact E2|]. split; [rewrite E4; reflexivity|].
  split; [exact E5|]. split; [exact E6 | exact E7].
Defined.

Lemma enumerate_one_transport_per_accepted_witness :
  fst (enumerate protocol_by_capability scenario_world) = Ok [0%nat]
  /\ transports (snd (enumerate protocol_by_capability scenario_world))
     = [WebUsbTransport.mk trezor1_dev 0%nat false
          {| VERSION := 1; protocol_handle := 0%nat |}]
  /\ handles (snd (enumerate protocol_by_capability scenario_world))
     = [WebUsbHandle.mk trezor1_dev INTERFACE ENDPOINT 0 None].
Proof.
  destruct (enumerate_one_transport_per_accepted protocol_by_capability
              scenario_world eq_refl) as (Haddrs & Hts & _ & Hhs & _).
  split; [exact Haddrs|]. split; [exact Hts | exact Hhs].
Defined.

Lemma enumerate_probe_failure_witness :
  fst (enumerate protocol_by_capability
         (bus_world [trezor1_dev; ghost_dev; hid_dev]))
    = fst (enumerate protocol_by_capability
             (bus_world [trezor1_dev; hid_dev]))
  /\ (exists addrs,
        fst (enumerate protocol_by_capability
               (bus_world [trezor1_dev; ghost_dev; hid_dev])) = Ok addrs)
  /\ fst (enumerate protocol_by_capability
            (bus_world [trezor1_dev; stalled_dev; hid_dev]))
     = Raise (USBError ErrPipe).
Proof.
  destruct (enumerate_probe_failure protocol_by_capability ghost_dev
              [trezor1_dev] [hid_dev]
              (bus_world [trezor1_dev; ghost_dev; hid_dev])
              eq_refl eq_refl eq_refl) as (Hdrop & _).
  destruct (enumerate_probe_failure protocol_by_capability stalled_dev
              [trezor1_dev] [hid_dev]
              (bus_world [trezor1_dev; stalled_dev; hid_dev])
              eq_refl eq_refl eq_refl) as (_ & Hraise).
  destruct (Hdrop eq_refl) as (_ & Hsame & Hok).
  split; [rewrite Hsame; reflexivity|].
  split; [exact (Hok eq_refl)|].
  destruct (Hraise _ eq_refl eq_refl) as (_ & _ & Hpipe).
  exact (Hpipe eq_refl).
Defined.

Lemma get_path_format_witness :
  get_path 0%nat (transport_world trezor1_dev)
    = (Ok "webusb:007:2:1", transport_world trezor1_dev).
Proof.
  destruct (get_path_format 0%nat (transport_world trezor1_dev) _ eq_refl)
    as (Hpath & _).
  exact Hpath.
Defined.

Lemma find_debug_by_version_witness :
  fst (find_debug protocol_by_capability 0%nat (transport_world trezor1_dev))
    = Ok 1%nat
  /\ transports
       (snd (find_debug protocol_by_capability 0%nat
               (transport_world trezor1_dev))) !! 1%nat
     = Some (WebUsbTransport.mk trezor1_dev 1%nat true
               {| VERSION := 1; protocol_handle := 1%nat |})
  /\ handles
       (snd (find_debug protocol_by_capability 0%nat
               (transport_world trezor1_dev))) !! 1%nat
     = Some (WebUsbHandle.mk trezor1_dev DEBUG_INTERFACE DEBUG_ENDPOINT 0 None)
  /\ transports
       (snd (find_debug protocol_by_capability 0%nat
               (transport_world trezor2_dev))) !! 1%nat
     = Some (WebUsbTransport.mk trezor2_dev 0%nat false
               {| VERSION := 2; protocol_handle := 0%nat |})
  /\ handles
       (snd (find_debug protocol_by_capability 0%nat
               (transport_world trezor2_dev)))
     = handles (transport_world trezor2_dev).
Proof.
  assert (Hwf1 : (0 < length (handles (transport_world trezor1_dev)))%nat)
    by (simpl; lia).
  assert (Hwf2 : (0 < length (handles (transport_world trezor2_dev)))%nat)
    by (simpl; lia).
  destruct (find_debug_by_version protocol_by_capability 0%nat
              (transport_world trezor1_dev) _ eq_refl Hwf1)
    as (Hnew & _ & _ & _ & Hv1 & _).
  destruct (find_debug_by_version protocol_by_capability 0%nat
              (transport_world trezor2_dev) _ eq_refl Hwf2)
    as (_ & _ & _ & _ & _ & Hv2).
  destruct (Hv1 eq_refl) as (E1 & _ & _ & E2).
  assert (Hle : 2 <= 2) by lia.
  destruct (Hv2 Hle) as (E3 & E4).
  split; [exact Hnew|]. split; [exact E1|]. split; [exact E2|].
  split; [exact E3 | exact E4].
Defined.

(** * Further properties of the chunk handle *)

Section handle_more.

Variable drv : Driver.
Variable sys_platform : string.

(** X1: on a Closed handle, [write_chunk] and [read_chunk] stop at their
    assertion: they raise [AssertionError] whatever the chunk, also one of a
    wrong size, and however long the read loop could run, and the state is
    left as it was, without any call to the driver. *)
Theorem chunk_io_on_closed_handle_asserts self w h :
  handles w !! self = Some h ->
  WebUsbHandle.handle h = None ->
  (forall chunk, write_chunk drv self chunk w = (Raise AssertionError, w))
  /\ (forall fuel, read_chunk drv fuel self w = Some (Raise AssertionError, w)).
Proof.
  intros Hself Hclosed. split.
  - intros chunk. unfold write_chunk.
    rewrite (bind_ok _ _ _ _ _ (load_handle_ok _ _ _ Hself)).
    now rewrite Hclosed.
  - intros fuel. unfold read_chunk.
    now rewrite (load_handle_ok _ _ _ Hself), Hclosed.
Qed.

(** X2: on an Open handle, when the reads find nothing [N] times and the
    next read raises, [read_chunk] raises that very error at iteration
    [N + 1], after [N + 1] reads and [N] sleeps: an error of the driver ends
    the retry loop. *)
Theorem read_chunk_driver_error self w h hd (N : nat) (e : Exn) :
  handles w !! self = Some h ->
  WebUsbHandle.handle h = Some hd ->
  let ep := Z.lor 0x80 (WebUsbHandle.endpoint h) in
  (forall k, (k < N)%nat -> nth_read drv hd ep k w = Ok []) ->
  nth_read drv hd ep N w = Raise e ->
  (forall fuel, (fuel <= N)%nat -> read_chunk drv fuel self w = None)
  /\ (forall fuel, (N < fuel)%nat ->
        read_chunk drv fuel self w =
          Some (Raise e,
                log (EvInterruptRead hd ep 64)
                  (after_empty_reads hd ep N w))).
Proof.
  intros Hself Hopen ep Hempty Hraise. split.
  - intros fuel Hle. rewrite (read_chunk_open _ _ _ _ _ _ Hself Hopen).
    unfold endpoint_in. fold ep.
    now rewrite (read_loop_early _ _ _ _ _ _ Hempty Hle).
  - intros fuel Hlt. rewrite (read_chunk_open _ _ _ _ _ _ Hself Hopen).
    unfold endpoint_in. fold ep.
    now rewrite (read_loop_answer _ _ _ _ _ _ Hempty Hlt), Hraise.
Qed.

(** Whatever the driver answers, a loop that ends has made [k] reads,
    between one and [fuel], slept after each but the last, and a chunk it
    hands over is not empty. *)
Lemma read_loop_ends hd ep :
  forall fuel w r w',
    read_loop drv fuel hd ep w = Some (r, w') ->
    exists k,
      (k < fuel)%nat
      /\ w' = log (EvInterruptRead hd ep 64) (after_empty_reads hd ep k w)
      /\ (forall chunk, r = Ok chunk -> chunk <> []).
Proof.
  induction fuel as [|fuel IH]; intros w r w' Hloop; [discriminate|].
  rewrite read_loop_S in Hloop.
  destruct (drv_interruptRead drv (trace w) hd ep 64) as [chunk|e].
  - destruct chunk as [|b chunk].
    + simpl truthy in Hloop. cbv iota in Hloop.
      apply IH in Hloop as (k & Hk & Hw' & Hne).
      exists (S k). split; [lia|]. split; [|exact Hne].
      now rewrite <- after_empty_reads_S.
    + simpl in Hloop. injection Hloop as <- <-.
      exists 0%nat. split; [lia|].
      split; [now rewrite after_empty_reads_0|].
      intros chunk' E. injection E as <-. discriminate.
  - injection Hloop as <- <-.
    exists 0%nat. split; [lia|].
    split; [now rewrite after_empty_reads_0 | discriminate].
Qed.

(** X3: whatever the driver does, a chunk that [read_chunk] returns has
    exactly 64 bytes. *)
Theorem read_chunk_returns_only_full_chunks fuel self w chunk w' :
  read_chunk drv fuel self w = Some (Ok chunk, w') ->
  length chunk = 64%nat.
Proof.
  unfold read_chunk, load_handle.
  destruct (handles w !! self) as [h|]; [|discriminate].
  destruct (WebUsbHandle.handle h) as [hd|]; [|discriminate].
  destruct (read_loop drv fuel hd _ w) as [[[buf|e] w1]|]; try discriminate.
  destruct (Nat.eqb_spec (length buf) 64) as [Hlen|Hlen]; simpl;
    [|discriminate].
  intros E. injection E as <- _. exact Hlen.
Qed.

(** X4: whatever the driver does and however it ends, [read_chunk] leaves
    both stores as they were and calls the driver only to read, 64 bytes at a
    time, from the input endpoint of the handle: the trace grows by [k]
    such reads, at most one for each iteration, and the call has slept
    [k - 1] times. *)
Theorem read_chunk_only_reads fuel self w h hd r w' :
  handles w !! self = Some h ->
  WebUsbHandle.handle h = Some hd ->
  read_chunk drv fuel self w = Some (r, w') ->
  handles w' = handles w
  /\ transports w' = transports w
  /\ exists k,
       (1 <= k <= fuel)%nat
       /\ trace w' =
            trace w
            ++ repeat
                 (EvInterruptRead hd (Z.lor 0x80 (WebUsbHandle.endpoint h)) 64)
                 k
       /\ slept_ms w' = (slept_ms w + (k - 1))%nat.
Proof.
  intros Hself Hopen. rewrite (read_chunk_open _ _ _ _ _ _ Hself Hopen).
  unfold endpoint_in.
  destruct (read_loop drv fuel hd _ w) as [[r1 w1]|] eqn:Hloop;
    [|discriminate].
  apply read_loop_ends in Hloop as (k & Hk & Hw1 & _).
  intros Hres.
  assert (Hw' : w' = w1).
  { destruct r1 as [buf|e]; [|now injection Hres].
    destruct (negb (Nat.eqb (length buf) 64)); now injection Hres. }
  subst w' w1. split; [reflexivity|]. split; [reflexivity|].
  exists (S k). split; [lia|]. split.
  - unfold log, after_empty_reads. cbn [trace].
    rewrite <- app_assoc. f_equal.
    replace (S k) with (k + 1)%nat by lia. now rewrite repeat_app.
  - simpl. f_equal. lia.
Qed.

End handle_more.

Lemma only_connection_changed_same self w w' :
  transports w' = transports w ->
  handles w' = handles w ->
  only_connection_changed self w w'.
Proof.
  intros Ht Hh. unfold only_connection_changed. rewrite Ht, Hh.
  repeat split; try reflexivity.
  intros h Hself. exists (WebUsbHandle.handle h).
  now rewrite with_handle_same.
Qed.

Lemma only_connection_changed_store self w w' h v :
  handles w !! self = Some h ->
  transports w' = transports w ->
  handles w' = <[self := with_handle v h]> (handles w) ->
  only_connection_changed self w w'.
Proof.
  intros Hself Ht Hh. unfold only_connection_changed. rewrite Ht, Hh.
  split; [reflexivity|]. split; [apply length_insert|]. split.
  - intros a Ha. now apply list_lookup_insert_ne.
  - intros h0 Hself0. exists v.
    assert (h0 = h) as -> by congruence.
    apply list_lookup_insert_eq. now apply lookup_lt_Some in Hself.
Qed.

Section handle_frame.

Variable drv : Driver.
Variable sys_platform : string.

Lemma open_touches_connection self w :
  only_connection_changed self w (snd (open drv sys_platform self w)).
Proof.
  destruct (handles w !! self) as [h|] eqn:Hself.
  - rewrite (open_unfold _ _ _ _ _ Hself).
    destruct (drv_open drv (trace w) (WebUsbHandle.device h)) as [[hd|]|e].
    + now apply (only_connection_changed_store _ _ _ h (Some hd)).
    + now apply (only_connection_changed_store _ _ _ h None).
    + now apply only_connection_changed_same.
  - unfold open, bind, load_handle. rewrite Hself.
    now apply only_connection_changed_same.
Qed.

Lemma close_touches_connection self w :
  only_connection_changed self w (snd (close drv self w)).
Proof.
  destruct (handles w !! self) as [h|] eqn:Hself.
  - destruct (WebUsbHandle.handle h) as [hd|] eqn:Hopen.
    + rewrite (close_open_unfold _ _ _ _ _ Hself Hopen). cbv zeta.
      destruct (drv_releaseInterface drv (trace w) hd
                  (WebUsbHandle.interface h)) as [[]|e];
        [|now apply only_connection_changed_same].
      destruct (drv_close drv _ hd) as [[]|e];
        [|now apply only_connection_changed_same].
      now apply (only_connection_changed_store _ _ _ h None).
    + rewrite (close_closed _ _ _ _ Hself Hopen).
      now apply only_connection_changed_same.
  - unfold close, bind, load_handle. rewrite Hself.
    now apply only_connection_changed_same.
Qed.

Lemma write_chunk_stores self chunk w :
  handles (snd (write_chunk drv self chunk w)) = handles w
  /\ transports (snd (write_chunk drv self chunk w)) = transports w.
Proof.
  unfold write_chunk, bind, load_handle.
  destruct (handles w !! self) as [h|]; [|now split].
  destruct (WebUsbHandle.handle h) as [hd|]; [|now split].
  destruct (negb (Nat.eqb (length chunk) 64)); [now split|].
  unfold interruptWrite, ret.
  now destruct (drv_interruptWrite drv (trace w) hd _ chunk).
Qed.

Lemma read_chunk_stores fuel self w r w' :
  read_chunk drv fuel self w = Some (r, w') ->
  handles w' = handles w /\ transports w' = transports w.
Proof.
  unfold read_chunk, load_handle.
  destruct (handles w !! self) as [h|];
    [|intros E; injection E as _ <-; now split].
  destruct (WebUsbHandle.handle h) as [hd|];
    [|intros E; injection E as _ <-; now split].
  destruct (read_loop drv fuel hd _ w) as [[r1 w1]|] eqn:Hloop;
    [|discriminate].
  apply read_loop_ends in Hloop as (k & _ & Hw1 & _).
  intros Hres.
  assert (Hw' : w' = w1).
  { destruct r1 as [buf|e]; [|now injection Hres].
    destruct (negb (Nat.eqb (length buf) 64)); now injection Hres. }
  subst w' w1. now split.
Qed.

(** X5: whatever the driver answers and however they end, [open] and
    [close] change nothing in the stores but the connection held in
    [self.handle]: every other chunk handle and every transport is as
    before, and the handle keeps its device, its interface, its endpoint and
    its count.  [write_chunk] changes nothing in the stores at all. *)
Theorem handle_methods_touch_only_the_connection self w :
  only_connection_changed self w (snd (open drv sys_platform self w))
  /\ only_connection_changed self w (snd (close drv self w))
  /\ (forall chunk,
        handles (snd (write_chunk drv self chunk w)) = handles w
        /\ transports (snd (write_chunk drv self chunk w)) = transports w).
Proof.
  split; [apply open_touches_connection|].
  split; [apply close_touches_connection|].
  intros chunk. apply write_chunk_stores.
Qed.

(** X6: on a Closed handle, when the four driver calls return, [open]
    followed by [close] brings both stores back to what they were, and the
    driver has seen, in this order, the device opened, the interface of the
    handle claimed on the connection that the open returned, the same
    interface released on the same connection, and that connection
    closed. *)
Theorem open_then_close_round_trip self w h hd :
  handles w !! self = Some h ->
  WebUsbHandle.handle h = None ->
  let dev := WebUsbHandle.device h in
  let itf := WebUsbHandle.interface h in
  drv_open drv (trace w) dev = Ok (Some hd) ->
  drv_claimInterface drv (trace w ++ [EvOpen dev]) hd itf = Ok tt ->
  drv_releaseInterface drv
    (trace w ++ [EvOpen dev; EvClaimInterface hd itf]) hd itf = Ok tt ->
  drv_close drv
    (trace w ++ [EvOpen dev; EvClaimInterface hd itf;
                 EvReleaseInterface hd itf]) hd = Ok tt ->
  let w' := snd ((open drv sys_platform self ;;; close drv self) w) in
  fst ((open drv sys_platform self ;;; close drv self) w) = Ok tt
  /\ handles w' = handles w
  /\ transports w' = transports w
  /\ trace w' =
       trace w ++ [EvOpen dev; EvClaimInterface hd itf;
                   EvReleaseInterface hd itf; EvClose hd].
Proof.
  intros Hself Hclosed dev itf Hopen Hclaim Hrel Hclose w'. subst w'.
  assert (Hlt : (self < length (handles w))%nat)
    by (now apply lookup_lt_Some in Hself).
  set (w1 := log (EvClaimInterface hd itf) (opened_world self h (Some hd) w)).
  assert (Hself1 : handles w1 !! self = Some (with_handle (Some hd) h))
    by (simpl; now apply list_lookup_insert_eq).
  assert (Htrace1 : trace w1 = trace w ++ [EvOpen dev; EvClaimInterface hd itf])
    by (simpl; now rewrite <- app_assoc).
  assert (Hrun : (open drv sys_platform self ;;; close drv self) w
                 = (Ok tt,
                    closed_world self (with_handle (Some hd) h) hd w1)).
  { unfold bind. rewrite (open_unfold _ _ _ _ _ Hself). fold dev itf.
    rewrite Hopen, Hclaim. fold w1.
    rewrite (close_open_unfold _ _ _ _ _ Hself1 eq_refl). cbv zeta.
    change (WebUsbHandle.interface (with_handle (Some hd) h)) with itf.
    rewrite Htrace1, Hrel.
    replace ((trace w ++ [EvOpen dev; EvClaimInterface hd itf])
             ++ [EvReleaseInterface hd itf])
      with (trace w ++ [EvOpen dev; EvClaimInterface hd itf;
                        EvReleaseInterface hd itf])
      by (now rewrite <- app_assoc).
    now rewrite Hclose. }
  rewrite Hrun. simpl fst. simpl snd.
  split; [reflexivity|]. split; [|split; [reflexivity|]].
  - simpl. rewrite list_insert_insert_eq.
    replace (with_handle None (with_handle (Some hd) h)) with h.
    + now apply list_insert_id.
    + destruct h. simpl in Hclosed. now subst.
  - simpl. rewrite <- !app_assoc. reflexivity.
Qed.

End handle_frame.

(** * Further properties of enumeration and of transports *)

Lemma new_transports_lookup get_protocol ds :
  forall nh i t,
    new_transports get_protocol ds nh !! i = Some t ->
    exists d,
      ds !! i = Some d
      /\ t = WebUsbTransport.mk d (nh + i) false
               (get_protocol (nh + i)%nat (is_trezor2 d)).
Proof.
  induction ds as [|d ds IH]; intros nh i t Hi; [discriminate|].
  destruct i as [|i]; simpl in Hi.
  - injection Hi as <-. exists d. now rewrite Nat.add_0_r.
  - apply IH in Hi as (d' & Hd' & ->). exists d'.
    split; [exact Hd'|]. now replace (S nh + i)%nat with (nh + S i)%nat by lia.
Qed.

Lemma new_transports_length get_protocol ds :
  forall nh, length (new_transports get_protocol ds nh) = length ds.
Proof. induction ds as [|d ds IH]; intros nh; simpl; [|rewrite IH]; lia. Qed.

Lemma ensure_context_world w :
  handles (snd (ensure_context w)) = handles w
  /\ transports (snd (ensure_context w)) = transports w
  /\ trace (snd (ensure_context w)) = trace w
  /\ slept_ms (snd (ensure_context w)) = slept_ms w
  /\ attached (snd (ensure_context w)) = attached w.
Proof. unfold ensure_context. now destruct (context w). Qed.

Section enumerate_more.

Variable get_protocol : addr -> bool -> Protocol.

(** However the loop ends, its state is the one in which a transport was
    built for some of the accepted descriptors, and nothing else happened. *)
Lemma enumerate_loop_world devs :
  forall devices w,
    exists ds,
      snd (enumerate_loop get_protocol devs devices w)
        = scanned_world get_protocol ds w
      /\ Forall (fun d => In d devs /\ accepted d = true) ds.
Proof.
  induction devs as [|dev devs IH]; intros devices w.
  - exists []. split; [now rewrite scanned_world_nil | constructor].
  - assert (Hweaken : forall ds,
              Forall (fun d => In d devs /\ accepted d = true) ds ->
              Forall (fun d => In d (dev :: devs) /\ accepted d = true) ds).
    { intros ds. apply List.Forall_impl. intros d [Hin Hacc].
      split; [now right | exact Hacc]. }
    rewrite enumerate_loop_cons.
    destruct (supported dev) eqn:Hs; cbn [negb].
    2: { destruct (IH devices w) as (ds & Hw & Hds). exists ds. auto. }
    destruct (is_vendor_class dev) as [[|]|e] eqn:Hv.
    + destruct (getProduct dev) as [s|e] eqn:Hp.
      * destruct (IH (devices ++ [length (transports w)])
                    (init_world get_protocol dev false w)) as (ds & Hw & Hds).
        exists (dev :: ds). split; [now rewrite scanned_world_cons|].
        constructor; [|auto]. split; [now left|].
        apply accepted_spec. eauto.
      * destruct (is_USBErrorNotSupported e).
        -- destruct (IH devices w) as (ds & Hw & Hds). exists ds. auto.
        -- exists []. split; [now rewrite scanned_world_nil | constructor].
    + destruct (IH devices w) as (ds & Hw & Hds). exists ds. auto.
    + exists []. split; [now rewrite scanned_world_nil | constructor].
Qed.

Lemma enumerate_world w :
  exists ds,
    snd (enumerate get_protocol w)
      = scanned_world get_protocol ds (snd (ensure_context w))
    /\ Forall (fun d => In d (attached w) /\ accepted d = true) ds.
Proof.
  rewrite enumerate_unfold.
  apply enumerate_loop_world.
Qed.

(** X7: however it ends, also when it raises, [enumerate] only adds to the
    stores: the chunk handles and transports that were there stay at their
    addresses, unchanged; each handle it adds is Closed and on the normal
    interface and endpoint; and [enumerate] itself makes no call on a
    connection: the trace, the time slept and the bus are as before. *)
Theorem enumerate_only_adds_closed_handles w :
  let w' := snd (enumerate get_protocol w) in
  (forall a h, handles w !! a = Some h -> handles w' !! a = Some h)
  /\ (forall a t, transports w !! a = Some t -> transports w' !! a = Some t)
  /\ (forall a h,
        handles w !! a = None -> handles w' !! a = Some h ->
        WebUsbHandle.handle h = None
        /\ WebUsbHandle.interface h = INTERFACE
        /\ WebUsbHandle.endpoint h = ENDPOINT
        /\ In (WebUsbHandle.device h) (attached w))
  /\ trace w' = trace w
  /\ slept_ms w' = slept_ms w
  /\ attached w' = attached w.
Proof.
  intros w'. subst w'.
  destruct (enumerate_world w) as (ds & -> & Hds).
  destruct (ensure_context_world w) as (Hh & Ht & Htr & Hsl & Hat).
  unfold scanned_world. simpl. rewrite Hh, Ht, Htr, Hsl, Hat.
  split; [intros a h Ha; apply lookup_app_l_Some; exact Ha|].
  split; [intros a t Ha; apply lookup_app_l_Some; exact Ha|].
  split; [|auto].
  intros a h Hnew Ha.
  apply lookup_ge_None in Hnew.
  rewrite lookup_app_r in Ha by exact Hnew.
  rewrite list_lookup_fmap in Ha.
  destruct (ds !! (a - length (handles w))%nat) as [d|] eqn:Hd;
    [|discriminate].
  injection Ha as <-. simpl.
  repeat split.
  rewrite Forall_forall in Hds.
  apply list_elem_of_lookup_2 in Hd. now destruct (Hds d Hd).
Qed.

(** X8: the bus context is made once: however it ends, [enumerate] leaves a
    context in place, registers its closing with [atexit] only when there
    was none, and a second [enumerate] keeps the context of the first and
    registers nothing. *)
Theorem enumerate_makes_context_once w :
  let w1 := snd (enumerate get_protocol w) in
  let w2 := snd (enumerate get_protocol w1) in
  context w1
    = Some (match context w with
            | Some c => c
            | None => {| ctx_opened := true |}
            end)
  /\ atexit_hooks w1
     = (atexit_hooks w + match context w with Some _ => 0 | None => 1 end)%nat
  /\ context w2 = context w1
  /\ atexit_hooks w2 = atexit_hooks w1.
Proof.
  intros w1 w2.
  assert (Hone : forall v,
            context (snd (enumerate get_protocol v))
              = Some (match context v with
                      | Some c => c
                      | None => {| ctx_opened := true |}
                      end)
            /\ atexit_hooks (snd (enumerate get_protocol v))
               = (atexit_hooks v
                  + match context v with Some _ => 0 | None => 1 end)%nat).
  { intros v. destruct (enumerate_world v) as (ds & -> & _).
    unfold scanned_world, ensure_context. simpl.
    destruct (context v) as [c|] eqn:Hc; simpl; split;
      solve [exact Hc | reflexivity | lia]. }
  destruct (Hone w) as [Hc1 Ha1]. destruct (Hone w1) as [Hc2 Ha2].
  fold w1 in Hc1, Ha1. fold w2 in Hc2, Ha2.
  split; [exact Hc1|]. split; [exact Ha1|].
  rewrite Hc2, Ha2, Hc1. split; [reflexivity | lia].
Qed.

End enumerate_more.

(** ** The store stays well formed *)

Lemma wf_store_same w w' :
  transports w' = transports w ->
  length (handles w') = length (handles w) ->
  wf_store w -> wf_store w'.
Proof.
  intros Ht Hh Hwf a t Ha. rewrite Ht in Ha. rewrite Hh. now apply (Hwf a).
Qed.

Lemma wf_store_touch self w w' :
  only_connection_changed self w w' -> wf_store w -> wf_store w'.
Proof. intros (Ht & Hh & _). now apply wf_store_same. Qed.

Section wf_store_facts.

Variable get_protocol : addr -> bool -> Protocol.

Lemma wf_scanned_world ds w :
  wf_store w -> wf_store (scanned_world get_protocol ds w).
Proof.
  intros Hwf a t Ha. unfold scanned_world in *. simpl in *.
  rewrite length_app, length_map.
  apply lookup_app_Some in Ha as [Ha|[_ Ha]].
  - apply Hwf in Ha. lia.
  - pose proof (lookup_lt_Some _ _ _ Ha) as Hlt.
    rewrite new_transports_length in Hlt.
    apply new_transports_lookup in Ha as (d & _ & ->). simpl. lia.
Qed.

Lemma wf_init_world dev debug w :
  wf_store w -> wf_store (init_world get_protocol dev debug w).
Proof.
  intros Hwf a t Ha. unfold init_world in *. simpl in *.
  rewrite length_app. simpl.
  apply lookup_app_Some in Ha as [Ha|[_ Ha]].
  - apply Hwf in Ha. lia.
  - destruct (a - length (transports w))%nat; [|discriminate].
    injection Ha as <-. simpl. lia.
Qed.

Lemma wf_share_world self t w :
  transports w !! self = Some t ->
  wf_store w ->
  wf_store
    (share_world get_protocol (WebUsbTransport.device t)
       (WebUsbTransport.handle t) w).
Proof.
  intros Hself Hwf a u Ha. unfold share_world in *. simpl in *.
  apply lookup_app_Some in Ha as [Ha|[_ Ha]].
  - now apply (Hwf a).
  - destruct (a - length (transports w))%nat; [|discriminate].
    injection Ha as <-. simpl. now apply (Hwf self).
Qed.

(** X9: that every transport refers to a chunk handle of the store is kept
    by every operation, however it ends: by [enumerate] and [find_debug],
    which add transports, and by [open], [close], [write_chunk] and
    [read_chunk], which add none.  So a transport got from [enumerate] or
    from [find_debug], starting from the empty store, always has its
    handle. *)
Theorem wf_store_is_kept w :
  wf_store w ->
  wf_store empty_world
  /\ wf_store (snd (enumerate get_protocol w))
  /\ (forall self, wf_store (snd (find_debug get_protocol self w)))
  /\ (forall drv sys_platform self,
        wf_store (snd (open drv sys_platform self w))
        /\ wf_store (snd (close drv self w)))
  /\ (forall drv self chunk, wf_store (snd (write_chunk drv self chunk w)))
  /\ (forall drv fuel self r w',
        read_chunk drv fuel self w = Some (r, w') -> wf_store w').
Proof.
  intros Hwf.
  split; [intros a t Ha; discriminate|].
  split.
  { destruct (enumerate_world get_protocol w) as (ds & -> & _).
    apply wf_scanned_world.
    destruct (ensure_context_world w) as (Hh & Ht & _).
    apply (wf_store_same w); [exact Ht | now rewrite Hh | exact Hwf]. }
  split.
  { intros self. destruct (transports w !! self) as [t|] eqn:Hself.
    - rewrite (find_debug_unfold _ _ _ _ Hself). simpl snd.
      destruct (Z.geb (VERSION (WebUsbTransport.protocol t)) 2).
      + now apply (wf_share_world self).
      + now apply wf_init_world.
    - unfold find_debug, bind, load_transport. now rewrite Hself. }
  split.
  { intros drv sys_platform self. split.
    - apply (wf_store_touch self w); [apply open_touches_connection|exact Hwf].
    - apply (wf_store_touch self w); [apply close_touches_connection|exact Hwf]. }
  split.
  { intros drv self chunk.
    destruct (write_chunk_stores drv self chunk w) as [Hh Ht].
    apply (wf_store_same w); [exact Ht | now rewrite Hh | exact Hwf]. }
  intros drv fuel self r w' Hread.
  destruct (read_chunk_stores _ _ _ _ _ _ Hread) as [Hh Ht].
  apply (wf_store_same w); [exact Ht | now rewrite Hh | exact Hwf].
Qed.

End wf_store_facts.

(** ** Identities and malformed descriptors *)

(** X10: the three identity tests exclude one another: a descriptor
    satisfies at most one of [is_trezor1], [is_trezor2] and
    [is_trezor2_bl], and it passes the identity filter of [enumerate]
    exactly when its (vendor ID, product ID) is one of the three pairs. *)
Theorem identity_tests_are_exclusive dev :
  (Nat.b2n (is_trezor1 dev) + Nat.b2n (is_trezor2 dev)
   + Nat.b2n (is_trezor2_bl dev) <= 1)%nat
  /\ (supported dev = true <->
      (getVendorID dev, getProductID dev) = DEV_TREZOR1
      \/ (getVendorID dev, getProductID dev) = DEV_TREZOR2
      \/ (getVendorID dev, getProductID dev) = DEV_TREZOR2_BL).
Proof.
  unfold supported, is_trezor1, is_trezor2, is_trezor2_bl, pair_eqb,
    DEV_TREZOR1, DEV_TREZOR2, DEV_TREZOR2_BL.
  cbn [fst snd].
  destruct (Z.eqb_spec (getVendorID dev) 21324) as [V1|V1];
  destruct (Z.eqb_spec (getVendorID dev) 4617) as [V2|V2];
  destruct (Z.eqb_spec (getProductID dev) 1) as [P1|P1];
  destruct (Z.eqb_spec (getProductID dev) 21441) as [P2|P2];
  destruct (Z.eqb_spec (getProductID dev) 21440) as [P3|P3];
  try lia; cbn [andb orb Nat.b2n Nat.add];
  (split; [lia|]);
  (split;
   [ intros H; try discriminate H;
     first [ left; congruence | right; left; congruence
           | right; right; congruence ]
   | intros [H|[H|H]]; first [reflexivity | injection H; intros; lia] ]).
Qed.

Lemma is_vendor_class_first_setting dev :
  is_vendor_class dev =
    match first_setting dev with
    | Some setting => Ok (Z.eqb (getClass setting) LIBUSB_CLASS_VENDOR_SPEC)
    | None => Raise IndexError
    end.
Proof.
  unfold is_vendor_class, first_setting, index, INTERFACE. simpl.
  change (Z.to_nat 0) with 0%nat.
  destruct (configurations dev !! 0%nat) as [cfg|]; [|reflexivity].
  destruct (cfg !! 0%nat) as [itf|]; [|reflexivity].
  now destruct (itf !! 0%nat).
Qed.

Section malformed_descriptor.

Variable get_protocol : addr -> bool -> Protocol.

(** X11: a descriptor with a supported identity but without a setting at
    configuration 0, interface 0, alternate setting 0 stops the scan:
    [enumerate] cannot return, and raises [IndexError] when nothing raised
    before; the transports built for the descriptors before it stay in the
    store.  A descriptor with another identity is never indexed, so the same
    lack there is harmless. *)
Theorem enumerate_stops_on_missing_setting dev pre post w :
  first_setting dev = None ->
  attached w = pre ++ dev :: post ->
  (supported dev = true ->
   (forall addrs, fst (enumerate get_protocol w) <> Ok addrs)
   /\ (forallb scan_quiet pre = true ->
       enumerate get_protocol w
       = (Raise IndexError,
          scanned_world get_protocol (List.filter accepted pre)
            (snd (ensure_context w)))))
  /\ (supported dev = false ->
      enumerate get_protocol w
      = enumerate_loop get_protocol (pre ++ post) []
          (snd (ensure_context w))).
Proof.
  intros Hnone Hbus.
  assert (Hv : is_vendor_class dev = Raise IndexError)
    by (now rewrite is_vendor_class_first_setting, Hnone).
  split.
  - intros Hs.
    assert (Hstep : forall rest devices w0,
              enumerate_loop get_protocol (dev :: rest) devices w0
              = (Raise IndexError, w0))
      by (intros; now rewrite enumerate_loop_cons, Hs, Hv).
    split.
    + intros addrs. rewrite enumerate_unfold, Hbus, enumerate_loop_app.
      destruct (enumerate_loop get_protocol pre [] (snd (ensure_context w)))
        as [[devices|e0] w1]; [|discriminate].
      rewrite Hstep. discriminate.
    + intros Hquiet. rewrite enumerate_unfold, Hbus, enumerate_loop_app.
      rewrite (enumerate_loop_quiet get_protocol _ [] _ Hquiet).
      now rewrite Hstep.
  - intros Hs. rewrite enumerate_unfold, Hbus, !enumerate_loop_app.
    destruct (enumerate_loop get_protocol pre [] (snd (ensure_context w)))
      as [[devices|e0] w1]; [|reflexivity].
    now rewrite enumerate_loop_cons, Hs.
Qed.

End malformed_descriptor.

(** ** The debug transport and the handle of the receiver *)

Section debug_session.

Variable get_protocol : addr -> bool -> Protocol.
Variable drv : Driver.
Variable sys_platform : string.

(** X12: opening the chunk handle of the transport that [find_debug]
    returned, with a driver that opens the device and grants the claim.
    When the protocol version of the receiver is 1, the debug interface is
    claimed and the handle of the receiver is left as it was.  When the
    version is 2 or more, the handle opened is the receiver's own: the
    interface claimed is the receiver's, and the receiver's handle now holds
    the new connection. *)
Theorem find_debug_then_open self w t h0 hd :
  transports w !! self = Some t ->
  handles w !! WebUsbTransport.handle t = Some h0 ->
  let dev := WebUsbTransport.device t in
  let w1 := snd (find_debug get_protocol self w) in
  (VERSION (WebUsbTransport.protocol t) = 1 ->
   drv_open drv (trace w) dev = Ok (Some hd) ->
   drv_claimInterface drv (trace w ++ [EvOpen dev]) hd DEBUG_INTERFACE
     = Ok tt ->
   exists t',
     transports w1 !! length (transports w) = Some t'
     /\ let a := WebUsbTransport.handle t' in
        let w2 := snd (open drv sys_platform a w1) in
        fst (open drv sys_platform a w1) = Ok tt
        /\ a <> WebUsbTransport.handle t
        /\ handles w2 !! a
           = Some (WebUsbHandle.mk dev DEBUG_INTERFACE DEBUG_ENDPOINT 0
                     (Some hd))
        /\ handles w2 !! WebUsbTransport.handle t = Some h0
        /\ trace w2
           = trace w ++ [EvOpen dev; EvClaimInterface hd DEBUG_INTERFACE])
  /\
  (2 <= VERSION (WebUsbTransport.protocol t) ->
   drv_open drv (trace w) (WebUsbHandle.device h0) = Ok (Some hd) ->
   drv_claimInterface drv (trace w ++ [EvOpen (WebUsbHandle.device h0)]) hd
     (WebUsbHandle.interface h0) = Ok tt ->
   exists t',
     transports w1 !! length (transports w) = Some t'
     /\ let a := WebUsbTransport.handle t' in
        let w2 := snd (open drv sys_platform a w1) in
        fst (open drv sys_platform a w1) = Ok tt
        /\ a = WebUsbTransport.handle t
        /\ handles w2 !! WebUsbTransport.handle t
           = Some (with_handle (Some hd) h0)
        /\ trace w2
           = trace w ++ [EvOpen (WebUsbHandle.device h0);
                         EvClaimInterface hd (WebUsbHandle.interface h0)]).
Proof.
  intros Hself Hh0 dev w1. subst w1.
  rewrite (find_debug_unfold _ _ _ _ Hself). simpl snd.
  assert (Hlt : (WebUsbTransport.handle t < length (handles w))%nat)
    by (now apply lookup_lt_Some in Hh0).
  split.
  - intros Hv Hopen Hclaim. rewrite Hv. simpl Z.geb. cbv iota. fold dev.
    eexists. split; [unfold init_world; simpl; apply list_lookup_middle;
                     reflexivity|].
    cbv zeta. simpl WebUsbTransport.handle.
    set (w1 := init_world get_protocol dev true w).
    assert (Hnew : handles w1 !! length (handles w)
                   = Some (WebUsbHandle_init dev true))
      by (unfold w1, init_world; simpl; now apply list_lookup_middle).
    rewrite (open_unfold _ _ _ _ _ Hnew).
    change (WebUsbHandle.device (WebUsbHandle_init dev true)) with dev.
    change (WebUsbHandle.interface (WebUsbHandle_init dev true))
      with DEBUG_INTERFACE.
    change (trace w1) with (trace w). rewrite Hopen, Hclaim. simpl fst.
    split; [reflexivity|]. split; [lia|].
    split; [simpl; apply list_lookup_insert_eq; rewrite length_app; simpl; lia|].
    split.
    + simpl. rewrite list_lookup_insert_ne by lia.
      now apply lookup_app_l_Some.
    + simpl. now rewrite <- app_assoc.
  - intros Hv Hopen Hclaim.
    assert (Hge : Z.geb (VERSION (WebUsbTransport.protocol t)) 2 = true)
      by (apply Z.geb_le; lia).
    rewrite Hge. fold dev.
    eexists. split; [unfold share_world; simpl; apply list_lookup_middle;
                     reflexivity|].
    cbv zeta. simpl WebUsbTransport.handle.
    set (w1 := share_world get_protocol dev (WebUsbTransport.handle t) w).
    assert (Hold : handles w1 !! WebUsbTransport.handle t = Some h0)
      by exact Hh0.
    rewrite (open_unfold _ _ _ _ _ Hold).
    change (trace w1) with (trace w). rewrite Hopen, Hclaim. simpl fst.
    split; [reflexivity|]. split; [reflexivity|].
    split; [simpl; now apply list_lookup_insert_eq|].
    simpl. now rewrite <- app_assoc.
Qed.

End debug_session.

(** ** More on paths *)

Lemma append_cons x (a b : string) :
  (String x a ++ b)%string = String x (a ++ b).
Proof. reflexivity. Qed.

Lemma append_nil (b : string) : ("" ++ b)%string = b.
Proof. reflexivity. Qed.

Lemma string_append_assoc (a b c : string) :
  ((a ++ b) ++ c = a ++ (b ++ c))%string.
Proof.
  induction a as [|x a IH]; [reflexivity|].
  now rewrite !append_cons, IH.
Qed.

Lemma string_prefix_append (a b : string) : String.prefix a (a ++ b) = true.
Proof.
  induction a as [|x a IH]; [rewrite append_nil; now destruct b|].
  rewrite append_cons. simpl.
  destruct (ascii_dec x x) as [_|Hne]; [exact IH | congruence].
Qed.

Lemma join_snoc sep x y (l : list string) :
  join sep ((x :: l) ++ [y]) = (join sep (x :: l) ++ sep ++ y)%string.
Proof.
  unfold join. revert x.
  induction l as [|z l IH]; intros x; [reflexivity|].
  change (String.concat sep ((x :: z :: l) ++ [y]))
    with (x ++ sep ++ String.concat sep ((z :: l) ++ [y]))%string.
  rewrite IH.
  change (String.concat sep (x :: z :: l))
    with (x ++ sep ++ String.concat sep (z :: l))%string.
  now rewrite !string_append_assoc.
Qed.

Lemma no_colon_append (a b : string) :
  no_colon (a ++ b) = no_colon a && no_colon b.
Proof.
  induction a as [|x a IH]; [reflexivity|].
  rewrite append_cons. simpl. now rewrite IH, andb_assoc.
Qed.

Lemma no_colon_string_of_uint d : no_colon (NilEmpty.string_of_uint d) = true.
Proof. induction d; simpl; auto. Qed.

Lemma no_colon_str_of_nat n : no_colon (str_of_nat n) = true.
Proof. apply no_colon_string_of_uint. Qed.

Lemma no_colon_three_digits n : no_colon (three_digits n) = true.
Proof.
  unfold three_digits.
  destruct (n <? 10)%nat; [|destruct (n <? 100)%nat];
    rewrite ?no_colon_append, no_colon_str_of_nat; reflexivity.
Qed.

Lemma split_colon_field (p : string) :
  no_colon p = true -> split_colon p = [p].
Proof.
  induction p as [|c p IH]; simpl; [reflexivity|].
  intros H. apply andb_prop in H as [Hc Hp].
  apply negb_true_iff in Hc. now rewrite Hc, (IH Hp).
Qed.

Lemma split_colon_cons (p rest : string) :
  no_colon p = true ->
  split_colon (p ++ ":" ++ rest) = p :: split_colon rest.
Proof.
  induction p as [|c p IH]; [reflexivity|].
  rewrite append_cons. simpl.
  intros H. apply andb_prop in H as [Hc Hp].
  apply negb_true_iff in Hc. now rewrite Hc, (IH Hp).
Qed.

Lemma split_colon_join (x : string) (l : list string) :
  forallb no_colon (x :: l) = true ->
  split_colon (join ":" (x :: l)) = x :: l.
Proof.
  unfold join. revert x.
  induction l as [|y l IH]; intros x H; simpl in H;
    apply andb_prop in H as [Hx Hl].
  - now apply split_colon_field.
  - change (String.concat ":" (x :: y :: l))
      with (x ++ ":" ++ String.concat ":" (y :: l))%string.
    rewrite (split_colon_cons _ _ Hx). f_equal. now apply IH.
Qed.

Lemma nat_of_str_zero (s : string) :
  nat_of_str ("0" ++ s) = nat_of_str s.
Proof.
  unfold nat_of_str. rewrite append_cons, append_nil. simpl.
  now destruct (NilEmpty.uint_of_string s).
Qed.

Lemma nat_of_str_three_digits n : nat_of_str (three_digits n) = Some n.
Proof.
  unfold three_digits.
  destruct (n <? 10)%nat; [|destruct (n <? 100)%nat].
  - change ("00" ++ str_of_nat n)%string
      with ("0" ++ "0" ++ str_of_nat n)%string.
    now rewrite !nat_of_str_zero, nat_of_str_of_nat.
  - now rewrite nat_of_str_zero, nat_of_str_of_nat.
  - apply nat_of_str_of_nat.
Qed.

Lemma parse_numbers_of_nats (ns : list nat) :
  parse_numbers (map str_of_nat ns) = Some ns.
Proof.
  induction ns as [|n ns IH]; simpl; [reflexivity|].
  now rewrite nat_of_str_of_nat, IH.
Qed.

Lemma forallb_no_colon_numbers (ns : list nat) :
  forallb no_colon (map str_of_nat ns) = true.
Proof.
  induction ns as [|n ns IH]; simpl; [reflexivity|].
  now rewrite no_colon_str_of_nat.
Qed.

Lemma parse_path_of bus ports :
  parse_path (path_of bus ports) = Some (bus, ports).
Proof.
  unfold parse_path, path_of.
  rewrite split_colon_join.
  - change (("webusb" =? "webusb")%string) with true. cbv iota.
    now rewrite nat_of_str_three_digits, parse_numbers_of_nats.
  - cbn [forallb]. rewrite no_colon_three_digits, forallb_no_colon_numbers.
    reflexivity.
Qed.

(** X13: the path tells the descriptors apart as far as their bus number
    and ports differ: the bus number and the port list can be read back
    from the path, so two descriptors have the same path exactly when they
    have the same bus number and the same ports. *)
Theorem path_names_bus_and_ports dev dev' :
  parse_path (PATH_PREFIX ++ ":" ++ dev_to_str dev)
    = Some (getBusNumber dev, getPortNumberList dev)
  /\ (dev_to_str dev = dev_to_str dev' <->
      getBusNumber dev = getBusNumber dev'
      /\ getPortNumberList dev = getPortNumberList dev').
Proof.
  assert (Hread : forall d,
            parse_path (PATH_PREFIX ++ ":" ++ dev_to_str d)
            = Some (getBusNumber d, getPortNumberList d))
    by (intros d; rewrite dev_to_str_path; apply parse_path_of).
  split; [apply Hread|]. split.
  - intros E. pose proof (Hread dev) as H. rewrite E, Hread in H.
    injection H as Hb Hp. now split.
  - intros [Hb Hp]. unfold dev_to_str. now rewrite Hb, Hp.
Qed.

(** X14: the path of a device plugged into a port of a hub is the path of
    the hub followed by a colon and the port number, so the path of the hub
    is a prefix of it. *)
Theorem dev_to_str_behind_hub hub dev port :
  getBusNumber dev = getBusNumber hub ->
  getPortNumberList dev = getPortNumberList hub ++ [port] ->
  dev_to_str dev = (dev_to_str hub ++ ":" ++ str_of_nat port)%string
  /\ String.prefix (dev_to_str hub) (dev_to_str dev) = true.
Proof.
  intros Hbus Hports.
  assert (E : dev_to_str dev
              = (dev_to_str hub ++ ":" ++ str_of_nat port)%string).
  { unfold dev_to_str. rewrite Hbus, Hports.
    rewrite !map_app, !map_map. cbn [map str app].
    apply (join_snoc ":" (fmt_03i (getBusNumber hub)) (str_of_nat port)). }
  split; [exact E|]. rewrite E. apply string_prefix_append.
Qed.

Lemma str_of_nat_length_below_1000 :
  forallb (fun n => (String.length (str_of_nat n) <=? 3)%nat) (seq 0 1000)
  = true.
Proof. vm_compute. reflexivity. Qed.

(** X15: ['%03i'] loses nothing and cuts nothing: the field reads back as
    the bus number, whatever the number; it has exactly three characters
    for a bus number below 1000, and is the plain decimal, longer than
    three characters or not, from 100 on. *)
Theorem fmt_03i_round_trip n :
  nat_of_str (fmt_03i n) = Some n
  /\ ((n < 1000)%nat -> String.length (fmt_03i n) = 3%nat)
  /\ ((100 <= n)%nat -> fmt_03i n = str_of_nat n).
Proof.
  rewrite fmt_03i_three_digits.
  split; [apply nat_of_str_three_digits|].
  destruct (str_of_nat_length n) as (H1 & H2 & H3).
  split.
  - intros Hn. unfold three_digits.
    destruct (Nat.ltb_spec n 10) as [Hlt|Hge].
    + change (String.length ("00" ++ str_of_nat n))
        with (S (S (String.length (str_of_nat n)))).
      now rewrite (H1 Hlt).
    + destruct (Nat.ltb_spec n 100) as [Hlt|Hge'].
      * change (String.length ("0" ++ str_of_nat n))
          with (S (String.length (str_of_nat n))).
        now rewrite (H2 (conj Hge Hlt)).
      * pose proof str_of_nat_length_below_1000 as Hall.
        rewrite forallb_forall in Hall.
        assert (Hin : In n (seq 0 1000)) by (apply in_seq; lia).
        apply Hall, Nat.leb_le in Hin. specialize (H3 Hge'). lia.
  - intros Hn. unfold three_digits.
    destruct (Nat.ltb_spec n 10) as [Hlt|Hge]; [lia|].
    destruct (Nat.ltb_spec n 100) as [Hlt|Hge']; [lia | reflexivity].
Qed.

(** ** Paths across two scans *)

Lemma get_path_lookup self w t :
  transports w !! self = Some t ->
  get_path self w
  = (Ok (path_of (getBusNumber (WebUsbTransport.device t))
           (getPortNumberList (WebUsbTransport.device t))), w).
Proof.
  intros Hself. unfold get_path.
  rewrite (bind_ok _ _ _ _ _ (load_transport_ok _ _ _ Hself)).
  unfold ret. now rewrite dev_to_str_path.
Qed.

Section two_scans.

Variable get_protocol : addr -> bool -> Protocol.

Lemma paths_of_new_transports ds :
  forall v pre post nh,
    transports v = pre ++ new_transports get_protocol ds nh ++ post ->
    paths_of v (seq (length pre) (length ds)) = map dev_path ds.
Proof.
  induction ds as [|d ds IH]; intros v pre post nh Hv; [reflexivity|].
  simpl new_transports in Hv.
  cbn [length seq map]. unfold paths_of. cbn [map]. f_equal.
  - assert (Hd : transports v !! length pre
                 = Some (WebUsbTransport.mk d nh false
                           (get_protocol nh (is_trezor2 d))))
      by (rewrite Hv; now apply list_lookup_middle).
    now rewrite (get_path_lookup _ _ _ Hd).
  - replace (S (length pre))
      with (length (pre ++ [WebUsbTransport.mk d nh false
                              (get_protocol nh (is_trezor2 d))]))
      by (rewrite length_app; simpl; lia).
    apply (IH v _ post (S nh)).
    rewrite Hv. now rewrite <- app_assoc.
Qed.

(** X16: on a bus where the scan raises on no descriptor, two calls of
    [enumerate] in succession return as many transports each, at addresses
    that differ from one call to the other, and with the same paths in the
    same order: the path of each transport is the one of its descriptor, so
    a path found in one scan names the same bus position in the next. *)
Theorem enumerate_twice_same_paths w :
  forallb scan_quiet (attached w) = true ->
  let found := List.filter accepted (attached w) in
  let w1 := snd (enumerate get_protocol w) in
  let w2 := snd (enumerate get_protocol w1) in
  exists first second,
    fst (enumerate get_protocol w) = Ok first
    /\ fst (enumerate get_protocol w1) = Ok second
    /\ length first = length found
    /\ length second = length found
    /\ (forall a, In a first -> ~ In a second)
    /\ paths_of w1 first = map dev_path found
    /\ paths_of w2 first = map dev_path found
    /\ paths_of w2 second = map dev_path found.
Proof.
  intros Hquiet found w1 w2.
  destruct (ensure_context_world w) as (Hh & Ht & _ & _ & Hat).
  assert (Hrun1 : enumerate get_protocol w
                  = (Ok (seq (length (transports w)) (length found)),
                     scanned_world get_protocol found
                       (snd (ensure_context w)))).
  { rewrite enumerate_unfold.
    rewrite (enumerate_loop_quiet get_protocol _ [] _ Hquiet).
    now rewrite Ht. }
  assert (Hw1 : w1 = scanned_world get_protocol found
                       (snd (ensure_context w)))
    by (unfold w1; now rewrite Hrun1).
  assert (Hat1 : attached w1 = attached w) by (now rewrite Hw1).
  assert (Hts1 : transports w1
                 = transports w
                   ++ new_transports get_protocol found (length (handles w)))
    by (rewrite Hw1; unfold scanned_world; simpl; now rewrite Ht, Hh).
  destruct (ensure_context_world w1) as (Hh' & Ht' & _ & _ & Hat').
  assert (Hquiet1 : forallb scan_quiet (attached w1) = true)
    by (now rewrite Hat1).
  assert (Hrun2 : enumerate get_protocol w1
                  = (Ok (seq (length (transports w1)) (length found)),
                     scanned_world get_protocol found
                       (snd (ensure_context w1)))).
  { rewrite enumerate_unfold.
    rewrite (enumerate_loop_quiet get_protocol _ [] _ Hquiet1).
    rewrite Ht', Hat1. reflexivity. }
  assert (Hts2 : transports w2
                 = transports w1
                   ++ new_transports get_protocol found (length (handles w1)))
    by (unfold w2; rewrite Hrun2; unfold scanned_world; simpl;
        now rewrite Ht', Hh').
  exists (seq (length (transports w)) (length found)),
         (seq (length (transports w1)) (length found)).
  split; [now rewrite Hrun1|]. split; [exact (f_equal fst Hrun2)|].
  split; [apply length_seq|]. split; [apply length_seq|].
  split.
  { intros a Ha Ha'. apply in_seq in Ha. apply in_seq in Ha'.
    rewrite Hts1, length_app, new_transports_length in Ha'. lia. }
  split.
  { apply (paths_of_new_transports found w1 (transports w) []
             (length (handles w))).
    now rewrite app_nil_r. }
  split.
  { apply (paths_of_new_transports found w2 (transports w)
             (new_transports get_protocol found (length (handles w1)))
             (length (handles w))).
    rewrite Hts2, Hts1. now rewrite <- app_assoc. }
  apply (paths_of_new_transports found w2 (transports w1) []
           (length (handles w1))).
  now rewrite app_nil_r.
Qed.

End two_scans.

(** ** What enumerate answers on any bus *)

Lemma scan_quiet_no_error dev :
  scan_quiet dev = true <-> scan_error dev = None.
Proof.
  unfold scan_quiet, scan_error.
  destruct (supported dev); cbn [negb orb]; [|tauto].
  destruct (is_vendor_class dev) as [[|]|e]; try (split; congruence).
  destruct (getProduct dev) as [s|e]; [tauto|].
  destruct (is_USBErrorNotSupported e); split; congruence.
Qed.

Section enumerate_result.

Variable get_protocol : addr -> bool -> Protocol.

Lemma enumerate_loop_result devs :
  forall devices w,
    fst (enumerate_loop get_protocol devs devices w) =
      match first_scan_error devs with
      | Some e => Raise e
      | None =>
          Ok (devices
              ++ seq (length (transports w))
                   (length (List.filter accepted devs)))
      end.
Proof.
  induction devs as [|dev devs IH]; intros devices w.
  - simpl. now rewrite app_nil_r.
  - rewrite enumerate_loop_cons.
    change (List.filter accepted (dev :: devs))
      with (if accepted dev then dev :: List.filter accepted devs
            else List.filter accepted devs).
    pose proof (eq_refl (accepted dev)) as Hacc.
    unfold accepted at 2 in Hacc.
    cbn [first_scan_error]. unfold scan_error.
    destruct (supported dev); cbn [negb andb] in *;
      [|rewrite Hacc; apply IH].
    destruct (is_vendor_class dev) as [[|]|e];
      [| rewrite Hacc; apply IH | reflexivity].
    destruct (getProduct dev) as [s|e]; rewrite Hacc;
      cbv beta iota delta [andb].
    + rewrite IH. destruct (first_scan_error devs); [reflexivity|].
      f_equal. rewrite <- app_assoc. f_equal. cbn [length seq app].
      do 2 f_equal.
      unfold init_world. cbn [transports set_transports set_handles].
      rewrite length_app. cbn [length]. lia.
    + destruct (is_USBErrorNotSupported e); [apply IH | reflexivity].
Qed.

(** X17: what [enumerate] answers, on any bus: it raises the error of the
    first descriptor, in bus order, on which the scan raises (a supported
    identity whose class cannot be read, or a vendor-class candidate whose
    product-string query raises something else than not-supported), and when
    there is none it returns one new address for each accepted descriptor.
    So it returns exactly when the scan raises on no descriptor. *)
Theorem enumerate_result_on_any_bus w :
  fst (enumerate get_protocol w) =
    match first_scan_error (attached w) with
    | Some e => Raise e
    | None =>
        Ok (seq (length (transports w))
              (length (List.filter accepted (attached w))))
    end
  /\ ((exists addrs, fst (enumerate get_protocol w) = Ok addrs) <->
      forallb scan_quiet (attached w) = true).
Proof.
  assert (Hres : fst (enumerate get_protocol w) =
                   match first_scan_error (attached w) with
                   | Some e => Raise e
                   | None =>
                       Ok (seq (length (transports w))
                             (length (List.filter accepted (attached w))))
                   end).
  { rewrite enumerate_unfold, enumerate_loop_result.
    destruct (ensure_context_world w) as (_ & Ht & _).
    now rewrite Ht. }
  split; [exact Hres|].
  rewrite Hres.
  assert (Hquiet : forall devs,
            forallb scan_quiet devs = true <-> first_scan_error devs = None).
  { induction devs as [|d devs IH]; simpl; [tauto|].
    rewrite andb_true_iff, IH, scan_quiet_no_error.
    destruct (scan_error d); split; try tauto; try congruence. }
  rewrite Hquiet.
  destruct (first_scan_error (attached w)) as [e|].
  - split; [intros [addrs H]; discriminate | discriminate].
  - split; [reflexivity | eauto].
Qed.

End enumerate_result.

(** ** The calls each method makes *)

Section call_footprints.

Variable drv : Driver.
Variable sys_platform : string.

(** X18: the driver calls of each method, whatever the driver answers.
    [open] opens the device and, at most, claims the interface of the handle
    on the connection it got: it never releases or closes a connection the
    handle held before.  [close] makes no call on a Closed handle and, on an
    Open one, releases the interface and at most closes the connection it
    holds.  [write_chunk] makes no call or one write. *)
Theorem handle_methods_calls self w h :
  handles w !! self = Some h ->
  let dev := WebUsbHandle.device h in
  let itf := WebUsbHandle.interface h in
  (trace (snd (open drv sys_platform self w)) = trace w ++ [EvOpen dev]
   \/ exists hd,
        drv_open drv (trace w) dev = Ok (Some hd)
        /\ trace (snd (open drv sys_platform self w))
           = trace w ++ [EvOpen dev; EvClaimInterface hd itf])
  /\ (WebUsbHandle.handle h = None ->
      trace (snd (close drv self w)) = trace w)
  /\ (forall hd,
        WebUsbHandle.handle h = Some hd ->
        trace (snd (close drv self w))
          = trace w ++ [EvReleaseInterface hd itf]
        \/ trace (snd (close drv self w))
           = trace w ++ [EvReleaseInterface hd itf; EvClose hd])
  /\ (forall chunk,
        trace (snd (write_chunk drv self chunk w)) = trace w
        \/ exists hd,
             WebUsbHandle.handle h = Some hd
             /\ length chunk = 64%nat
             /\ trace (snd (write_chunk drv self chunk w))
                = trace w
                  ++ [EvInterruptWrite hd (WebUsbHandle.endpoint h) chunk]).
Proof.
  intros Hself dev itf.
  split; [|split; [|split]].
  - rewrite (open_unfold _ _ _ _ _ Hself). fold dev itf.
    destruct (drv_open drv (trace w) dev) as [[hd|]|e].
    + right. exists hd. split; [reflexivity|].
      simpl. now rewrite <- app_assoc.
    + now left.
    + now left.
  - intros Hclosed. now rewrite (close_closed _ _ _ _ Hself Hclosed).
  - intros hd Hopen.
    rewrite (close_open_unfold _ _ _ _ _ Hself Hopen). cbv zeta. fold itf.
    destruct (drv_releaseInterface drv (trace w) hd itf) as [[]|e];
      [|now left].
    destruct (drv_close drv _ hd) as [[]|e];
      right; simpl; now rewrite <- app_assoc.
  - intros chunk.
    destruct (WebUsbHandle.handle h) as [hd|] eqn:Hopen.
    + rewrite (write_chunk_open _ _ _ _ _ _ Hself Hopen).
      destruct (Nat.eqb_spec (length chunk) 64) as [Hlen|Hlen]; simpl.
      * right. exists hd. auto.
      * now left.
    + left. unfold write_chunk.
      rewrite (bind_ok _ _ _ _ _ (load_handle_ok _ _ _ Hself)).
      now rewrite Hopen.
Qed.

End call_footprints.

(** * The further properties at concrete inputs *)

Lemma chunk_io_on_closed_handle_asserts_witness :
  write_chunk steady_driver 0%nat chunk64 (handle_world None)
    = (Raise AssertionError, handle_world None)
  /\ write_chunk steady_driver 0%nat chunk65 (handle_world None)
     = (Raise AssertionError, handle_world None)
  /\ read_chunk steady_driver 5 0%nat (handle_world None)
     = Some (Raise AssertionError, handle_world None).
Proof.
  destruct (chunk_io_on_closed_handle_asserts steady_driver 0%nat
              (handle_world None) _ eq_refl eq_refl) as [Hwrite Hread].
  split; [apply Hwrite|]. split; [apply Hwrite | apply Hread].
Defined.

Lemma read_chunk_driver_error_witness :
  read_chunk vanishing_driver 2 0%nat (handle_world (Some 1%nat)) = None
  /\ read_chunk vanishing_driver 3 0%nat (handle_world (Some 1%nat))
     = Some (Raise (USBError ErrNoDevice),
             log (EvInterruptRead 1%nat 0x81 64)
               (after_empty_reads 1%nat 0x81 2 (handle_world (Some 1%nat)))).
Proof.
  assert (Hempty : forall k, (k < 2)%nat ->
            nth_read vanishing_driver 1%nat 0x81 k (handle_world (Some 1%nat))
            = Ok []).
  { intros k Hk. destruct k as [|[|k]]; [reflexivity | reflexivity | lia]. }
  destruct (read_chunk_driver_error vanishing_driver 0%nat
              (handle_world (Some 1%nat)) _ 1%nat 2 (USBError ErrNoDevice)
              eq_refl eq_refl Hempty eq_refl) as [Hearly Hraise].
  split; [apply Hearly; lia | apply Hraise; lia].
Defined.

Lemma read_chunk_returns_only_full_chunks_witness :
  read_chunk late_driver 4 0%nat (handle_world (Some 1%nat))
    = Some (Ok chunk64,
            log (EvInterruptRead 1%nat 0x81 64)
              (after_empty_reads 1%nat 0x81 3 (handle_world (Some 1%nat))))
  /\ length chunk64 = 64%nat.
Proof.
  assert (Hrun : read_chunk late_driver 4 0%nat (handle_world (Some 1%nat))
                 = Some (Ok chunk64,
                         log (EvInterruptRead 1%nat 0x81 64)
                           (after_empty_reads 1%nat 0x81 3
                              (handle_world (Some 1%nat)))))
    by reflexivity.
  split; [exact Hrun|].
  exact (read_chunk_returns_only_full_chunks late_driver 4 0%nat
           (handle_world (Some 1%nat)) chunk64 _ Hrun).
Defined.

Lemma read_chunk_only_reads_witness :
  exists k,
    (1 <= k <= 4)%nat
    /\ trace (log (EvInterruptRead 1%nat 0x81 64)
                (after_empty_reads 1%nat 0x81 3 (handle_world (Some 1%nat))))
       = repeat (EvInterruptRead 1%nat 0x81 64) k
    /\ slept_ms (log (EvInterruptRead 1%nat 0x81 64)
                   (after_empty_reads 1%nat 0x81 3
                      (handle_world (Some 1%nat))))
       = (k - 1)%nat.
Proof.
  assert (Hrun : read_chunk late_driver 4 0%nat (handle_world (Some 1%nat))
                 = Some (Ok chunk64,
                         log (EvInterruptRead 1%nat 0x81 64)
                           (after_empty_reads 1%nat 0x81 3
                              (handle_world (Some 1%nat)))))
    by reflexivity.
  destruct (read_chunk_only_reads late_driver 4 0%nat
              (handle_world (Some 1%nat)) _ 1%nat _ _ eq_refl eq_refl Hrun)
    as (_ & _ & k & Hk & Htrace & Hslept).
  exists k. split; [exact Hk|]. split; [exact Htrace | exact Hslept].
Defined.

Lemma open_then_close_round_trip_witness :
  fst ((open steady_driver "linux" 0%nat ;;; close steady_driver 0%nat)
         (handle_world None)) = Ok tt
  /\ handles (snd ((open steady_driver "linux" 0%nat
                    ;;; close steady_driver 0%nat) (handle_world None)))
     = handles (handle_world None)
  /\ trace (snd ((open steady_driver "linux" 0%nat
                  ;;; close steady_driver 0%nat) (handle_world None)))
     = [EvOpen trezor1_dev; EvClaimInterface 1%nat INTERFACE;
        EvReleaseInterface 1%nat INTERFACE; EvClose 1%nat].
Proof.
  destruct (open_then_close_round_trip steady_driver "linux" 0%nat
              (handle_world None) _ 1%nat eq_refl eq_refl eq_refl eq_refl
              eq_refl eq_refl) as (Hok & Hh & _ & Htrace).
  split; [exact Hok|]. split; [exact Hh | exact Htrace].
Defined.

Lemma wf_store_is_kept_witness :
  wf_store (snd (enumerate protocol_by_capability scenario_world))
  /\ wf_store
       (snd (find_debug protocol_by_capability 0%nat
               (transport_world trezor1_dev))).
Proof.
  assert (Hempty : wf_store scenario_world)
    by (intros a t Ha; discriminate).
  assert (Hone : wf_store (transport_world trezor1_dev)).
  { intros a t Ha. destruct a as [|a]; [|discriminate].
    injection Ha as <-. simpl. lia. }
  destruct (wf_store_is_kept protocol_by_capability scenario_world Hempty)
    as (_ & Henum & _).
  destruct (wf_store_is_kept protocol_by_capability
              (transport_world trezor1_dev) Hone) as (_ & _ & Hdebug & _).
  split; [exact Henum | exact (Hdebug 0%nat)].
Defined.

Lemma enumerate_stops_on_missing_setting_witness :
  fst (enumerate protocol_by_capability
         (bus_world [trezor1_dev; bare_dev; hid_dev]))
    = Raise IndexError
  /\ transports
       (snd (enumerate protocol_by_capability
               (bus_world [trezor1_dev; bare_dev; hid_dev])))
     = [WebUsbTransport.mk trezor1_dev 0%nat false
          {| VERSION := 1; protocol_handle := 0%nat |}].
Proof.
  destruct (enumerate_stops_on_missing_setting protocol_by_capability
              bare_dev [trezor1_dev] [hid_dev]
              (bus_world [trezor1_dev; bare_dev; hid_dev])
              eq_refl eq_refl) as [Hraise _].
  destruct (Hraise eq_refl) as [_ Hrun].
  rewrite (Hrun eq_refl). split; reflexivity.
Defined.

Lemma find_debug_then_open_witness :
  (exists t',
     transports
       (snd (find_debug protocol_by_capability 0%nat
               (transport_world trezor1_dev))) !! 1%nat = Some t'
     /\ WebUsbTransport.handle t' <> 0%nat
     /\ handles
          (snd (open steady_driver "linux" (WebUsbTransport.handle t')
                  (snd (find_debug protocol_by_capability 0%nat
                          (transport_world trezor1_dev))))) !! 0%nat
        = Some (WebUsbHandle.mk trezor1_dev INTERFACE ENDPOINT 0 None))
  /\ (exists t',
        transports
          (snd (find_debug protocol_by_capability 0%nat
                  (transport_world trezor2_dev))) !! 1%nat = Some t'
        /\ WebUsbTransport.handle t' = 0%nat
        /\ handles
             (snd (open steady_driver "linux" (WebUsbTransport.handle t')
                     (snd (find_debug protocol_by_capability 0%nat
                             (transport_world trezor2_dev))))) !! 0%nat
           = Some (WebUsbHandle.mk trezor2_dev INTERFACE ENDPOINT 0
                     (Some 1%nat))).
Proof.
  destruct (find_debug_then_open protocol_by_capability steady_driver "linux"
              0%nat (transport_world trezor1_dev) _ _ 1%nat eq_refl eq_refl)
    as [Hv1 _].
  destruct (find_debug_then_open protocol_by_capability steady_driver "linux"
              0%nat (transport_world trezor2_dev) _ _ 1%nat eq_refl eq_refl)
    as [_ Hv2].
  destruct (Hv1 eq_refl eq_refl eq_refl)
    as (t1 & Ht1 & _ & Hne & _ & Hold & _).
  assert (Hle : 2 <= 2) by lia.
  destruct (Hv2 Hle eq_refl eq_refl) as (t2 & Ht2 & _ & Hsame & Hnow & _).
  split.
  - exists t1. split; [exact Ht1|]. split; [exact Hne | exact Hold].
  - exists t2. split; [exact Ht2|]. split; [exact Hsame | exact Hnow].
Defined.

Lemma dev_to_str_behind_hub_witness :
  dev_to_str hub_dev = "001:4"
  /\ dev_to_str trezor_behind_hub = "001:4:2"
  /\ String.prefix (dev_to_str hub_dev) (dev_to_str trezor_behind_hub) = true.
Proof.
  destruct (dev_to_str_behind_hub hub_dev trezor_behind_hub 2%nat
              eq_refl eq_refl) as [Hext Hprefix].
  split; [reflexivity|]. split; [exact Hext | exact Hprefix].
Defined.

Lemma enumerate_twice_same_paths_witness :
  exists first second,
    fst (enumerate protocol_by_capability
           (bus_world [trezor1_dev; hid_dev; trezor2_dev])) = Ok first
    /\ fst (enumerate protocol_by_capability
              (snd (enumerate protocol_by_capability
                      (bus_world [trezor1_dev; hid_dev; trezor2_dev]))))
       = Ok second
    /\ (forall a, In a first -> ~ In a second)
    /\ paths_of
         (snd (enumerate protocol_by_capability
                 (snd (enumerate protocol_by_capability
                         (bus_world [trezor1_dev; hid_dev; trezor2_dev])))))
         second
       = [Ok "webusb:007:2:1"; Ok "webusb:003:1"].
Proof.
  destruct (enumerate_twice_same_paths protocol_by_capability
              (bus_world [trezor1_dev; hid_dev; trezor2_dev]) eq_refl)
    as (first & second & H1 & H2 & _ & _ & Hdisj & _ & _ & Hpaths).
  exists first, second.
  split; [exact H1|]. split; [exact H2|]. split; [exact Hdisj | exact Hpaths].
Defined.

Lemma handle_methods_calls_witness :
  (trace (snd (open steady_driver "linux" 0%nat (handle_world (Some 7%nat))))
     = [EvOpen trezor1_dev]
   \/ exists hd,
        drv_open steady_driver [] trezor1_dev = Ok (Some hd)
        /\ trace (snd (open steady_driver "linux" 0%nat
                         (handle_world (Some 7%nat))))
           = [EvOpen trezor1_dev; EvClaimInterface hd INTERFACE])
  /\ (trace (snd (close steady_driver 0%nat (handle_world (Some 7%nat))))
        = [EvReleaseInterface 7%nat INTERFACE]
      \/ trace (snd (close steady_driver 0%nat (handle_world (Some 7%nat))))
         = [EvReleaseInterface 7%nat INTERFACE; EvClose 7%nat]).
Proof.
  destruct (handle_methods_calls steady_driver "linux" 0%nat
              (handle_world (Some 7%nat)) _ eq_refl)
    as (Hopen & _ & Hclose & _).
  split; [exact Hopen | exact (Hclose 7%nat eq_refl)].
Defined.
